(** * The collection query engine of the triple store

    A shallow embedding of [packages/db/src/collection-query.ts]: the index
    selector, the candidate stream, the filter and cursor stages of the fetch
    pipeline, the sub-query loader with its frame stack, the state vector of
    the delta engine and the write handler of a live subscription.

    Asynchronous generators are read as the finite lists they yield on one
    snapshot of the store; mutable objects are threaded as explicit state;
    a thrown exception is a result of its own and leaves the state as the
    throwing statement found it. *)

From stdpp Require Import base option list strings gmap pretty.
From Stdlib Require Import ZArith Lia Ascii.

Local Open Scope Z_scope.
Set Warnings "-register-all".

(** ** Strings as JavaScript uses them

    A string is the sequence of its code units, each of them below 256. *)

Module Str.

(** [s.split(sep)] for a one-character separator: never empty, the empty
  string splits into one empty piece. *)
Fixpoint split (sep : ascii) (s : string) : list string :=
match s with
| EmptyString => [EmptyString]
| String c rest =>
    if Ascii.eqb c sep then EmptyString :: split sep rest
    else match split sep rest with
         | [] => [String c EmptyString]
         | w :: ws => String c w :: ws
         end
end.

(** [l.join(sep)] *)
Definition join (sep : string) (l : list string) : string := String.concat sep l.

(** [s.indexOf(c)], [None] standing for -1. *)
Fixpoint indexOf (c : ascii) (s : string) : option nat :=
match s with
| EmptyString => None
| String d rest => if Ascii.eqb d c then Some 0%nat else S <$> indexOf c rest
end.

(** [s.slice(n)] *)
Fixpoint drop (n : nat) (s : string) : string :=
match n, s with
| O, _ => s
| S k, EmptyString => EmptyString
| S k, String _ rest => drop k rest
end.

(** [s.slice(0, n)] *)
Fixpoint take (n : nat) (s : string) : string :=
match n, s with
| O, _ => EmptyString
| S k, EmptyString => EmptyString
| S k, String c rest => String c (take k rest)
end.

Definition digit (c : ascii) : option Z :=
let n := Z.of_nat (nat_of_ascii c) in
if (48 <=? n) && (n <=? 57) then Some (n - 48) else None.

Fixpoint digits (acc : Z) (s : string) : Z :=
match s with
| EmptyString => acc
| String c rest =>
    match digit c with
    | Some d => digits (10 * acc + d) rest
    | None => acc
    end
end.

(** White space as [parseInt] skips it: tab, line feed, vertical tab, form
  feed, carriage return, space and the no-break space. *)
Definition isWhiteSpace (c : ascii) : bool :=
let n := nat_of_ascii c in
((9 <=? n) && (n <=? 13) || (n =? 32) || (n =? 160))%nat.

Fixpoint trimStart (s : string) : string :=
match s with
| EmptyString => EmptyString
| String c rest => if isWhiteSpace c then trimStart rest else s
end.

Definition hexDigit (c : ascii) : option Z :=
match digit c with
| Some d => Some d
| None =>
    let n := Z.of_nat (nat_of_ascii c) in
    if (97 <=? n) && (n <=? 102) then Some (n - 87)
    else if (65 <=? n) && (n <=? 70) then Some (n - 55)
    else None
end.

Fixpoint hexDigits (acc : Z) (s : string) : Z :=
match s with
| EmptyString => acc
| String c rest =>
    match hexDigit c with
    | Some d => hexDigits (16 * acc + d) rest
    | None => acc
    end
end.

(** The number behind the sign: in base 16 behind [0x] or [0X], in base 10
  otherwise. The digits are read up to the first character that is none, and
  there has to be one. *)
Definition parseUnsigned (s : string) : option Z :=
let decimal :=
  match s with
  | EmptyString => None
  | String c _ => match digit c with
                  | Some _ => Some (digits 0 s)
                  | None => None
                  end
  end in
match s with
| String zero (String x rest) =>
    if Ascii.eqb zero "0" && (Ascii.eqb x "x" || Ascii.eqb x "X") then
      match rest with
      | EmptyString => None
      | String c _ => match hexDigit c with
                      | Some _ => Some (hexDigits 0 rest)
                      | None => None
                      end
      end
    else decimal
| _ => decimal
end.

(** [parseInt(s)], no radix given: leading white space is skipped, a sign is
  read, then the number; [None] is [NaN]. The number is the exact integer:
  the source has the nearest floating point number, which is the same up to
  [Number.MAX_SAFE_INTEGER]. *)
Definition parseInt (s : string) : option Z :=
match trimStart s with
| EmptyString => None
| String sign rest =>
    if Ascii.eqb sign "-" then Z.opp <$> parseUnsigned rest
    else if Ascii.eqb sign "+" then parseUnsigned rest
    else parseUnsigned (String sign rest)
end.

(** The relational operators of JavaScript on strings: code units compared
  from the left. *)
Definition ltb (a b : string) : bool :=
match String.compare a b with Lt => true | _ => false end.

Definition gtb (a b : string) : bool :=
match String.compare a b with Gt => true | _ => false end.

End Str.

(** ** Data model *)

(** Values of triples and of filter statements ([QueryValue], [TupleValue]).
    Dates and arrays are not part of this model. *)
Inductive Value :=
| VUndefined
| VNull
| VBool (b : bool)
| VNum (n : Z)
| VStr (s : string).

#[global] Instance Value_eq_dec : EqDecision Value.
Proof. solve_decision. Defined.

(** What string concatenation and [join] make of a value. *)
Definition toString (v : Value) : string :=
  match v with
  | VUndefined => "undefined"
  | VNull => "null"
  | VBool true => "true"
  | VBool false => "false"
  | VNum n => pretty n
  | VStr s => s
  end.

(** [(tick, client_id)] *)
Definition Timestamp : Type := Z * string.

(** Modelled from the spec: [timestampCompare] of [timestamp.js], absent from
    the sources: "lexicographic compare (tick first, client_id as
    tiebreaker)". *)
Definition timestampCompare (a b : Timestamp) : comparison :=
  match Z.compare a.1 b.1 with
  | Eq => String.compare a.2 b.2
  | c => c
  end.

Module TripleRow.
Record t := mk {
  id : string;
  attribute : list Value;
  value : Value;
  timestamp : Timestamp;
  expired : bool
}.
End TripleRow.

Inductive Operator :=
| OpEq | OpNeq | OpLt | OpLte | OpGt | OpGte
| OpIn | OpNin | OpHas | OpNotHas
| OpLike | OpNlike | OpIsDefined.

#[global] Instance Operator_eq_dec : EqDecision Operator.
Proof. solve_decision. Defined.

Inductive Direction := ASC | DESC.

#[global] Instance Direction_eq_dec : EqDecision Direction.
Proof. solve_decision. Defined.

Inductive QueryResultCardinality := one | many.

#[global] Instance QueryResultCardinality_eq_dec : EqDecision QueryResultCardinality.
Proof. solve_decision. Defined.

Inductive GroupMod := mod_and | mod_or.

(** [[value, entityId]] of an [after] clause. *)
Definition Cursor : Type := Value * string.

(** A query and its filter nodes. [isFilterStatement], [isFilterGroup],
    [isSubQueryFilter], [isExistsFilter] and [isBooleanFilter] of [query.js]
    are the tests on the constructor. *)
Inductive WhereFilter :=
| FilterStatement (path : string) (op : Operator) (value : Value)
| FilterGroup (mod_ : GroupMod) (filters : list WhereFilter)
| SubQueryFilter (exists_ : CollectionQuery)
| ExistsFilter (relationship : string) (filters : list WhereFilter)
| BooleanFilter (b : bool)
with CollectionQuery :=
| mkQuery (collectionName : string)
          (where_ : option (list WhereFilter))
          (order : option (list (string * Direction)))
          (limit : option nat)
          (after : option (Cursor * bool))
          (select : option (list string))
          (include : option (list (string * QueryInclusion)))
          (vars : option (list (string * Value)))
with QueryInclusion :=
| InclusionShorthand (is_true : bool)
| RelationSubquery (subquery : CollectionQuery) (cardinality : QueryResultCardinality)
| RefSubquery (_rel : string)
| NestedInclusion (inclusions : list (string * QueryInclusion)).

Definition collectionName (q : CollectionQuery) : string :=
  let 'mkQuery c _ _ _ _ _ _ _ := q in c.
Definition where_ (q : CollectionQuery) : option (list WhereFilter) :=
  let 'mkQuery _ w _ _ _ _ _ _ := q in w.
Definition order (q : CollectionQuery) : option (list (string * Direction)) :=
  let 'mkQuery _ _ o _ _ _ _ _ := q in o.
Definition limit (q : CollectionQuery) : option nat :=
  let 'mkQuery _ _ _ l _ _ _ _ := q in l.
Definition after (q : CollectionQuery) : option (Cursor * bool) :=
  let 'mkQuery _ _ _ _ a _ _ _ := q in a.
Definition select (q : CollectionQuery) : option (list string) :=
  let 'mkQuery _ _ _ _ _ s _ _ := q in s.
Definition include (q : CollectionQuery) : option (list (string * QueryInclusion)) :=
  let 'mkQuery _ _ _ _ _ _ i _ := q in i.
Definition vars (q : CollectionQuery) : option (list (string * Value)) :=
  let 'mkQuery _ _ _ _ _ _ _ v := q in v.

(** [where ?? []] *)
Definition whereList (q : CollectionQuery) : list WhereFilter := default [] (where_ q).

Definition isFilterStatement (f : WhereFilter) : bool :=
  match f with FilterStatement _ _ _ => true | _ => false end.
Definition isSubQueryFilter (f : WhereFilter) : bool :=
  match f with SubQueryFilter _ => true | _ => false end.

(** Schema types: [type] is one of the scalar names, ["set"], ["record"] or
    ["query"]; a relation carries its query and its cardinality. *)
Inductive DataType :=
| ScalarType (name : string)
| SetType
| RecordType
| QueryType (query : CollectionQuery) (cardinality : QueryResultCardinality).

Definition isQueryType (d : DataType) : bool :=
  match d with QueryType _ _ => true | _ => false end.
Definition isRecordType (d : DataType) : bool :=
  match d with RecordType => true | _ => false end.
Definition isSetType (d : DataType) : bool :=
  match d with SetType => true | _ => false end.

(** Modelled from the spec: the schema service ([schema/schema.js], absent
    from the sources). The spec gives it as [get_attribute(path, collection)
    -> DataType?]; [properties] lists [schema[collection].schema.properties],
    when the collection has a schema.
    The schema iterator and the schema traverser present the attribute found
    at each successive prefix of a path. *)
Record Models := mkModels {
  getAttributeFromSchema : list string -> string -> option DataType;
  properties : string -> option (list (string * DataType))
}.

(** The non-empty prefixes of a path, shortest first. *)
Fixpoint prefixes {A} (l : list A) : list (list A) :=
  match l with
  | [] => []
  | x :: r => [x] :: map (cons x) (prefixes r)
  end.

Definition createSchemaIterator (attrPath : list string) (schema : Models)
    (collection : string) : list (option DataType) :=
  map (fun p => getAttributeFromSchema schema p collection) (prefixes attrPath).

(** Modelled from the spec: [appendCollectionToId], [splitIdParts] and
    [stripCollectionFromId] of [db-helpers.js], absent from the sources:
    "entity_id is <collection>#<external_id>". *)
Definition appendCollectionToId (collection : string) (id : string) : string :=
  collection +:+ "#" +:+ id.

Definition splitIdParts (id : string) : string * string :=
  match Str.indexOf "#" id with
  | Some i => (Str.take i id, Str.drop (S i) id)
  | None => (id, "")
  end.

Definition stripCollectionFromId (id : string) : string := (splitIdParts id).2.

(** ** The index API of the triple store (consumed) *)

Record RangeContraints := mkRange {
  direction : option Direction;
  greaterThan : option Value;
  greaterThanOrEqual : option Value;
  lessThan : option Value;
  lessThanOrEqual : option Value;
  greaterThanCursor : option Cursor;
  greaterThanOrEqualCursor : option Cursor;
  lessThanCursor : option Cursor;
  lessThanOrEqualCursor : option Cursor
}.

Record TripleStoreApi := mkTx {
  findByAVE : list Value -> Value -> list TripleRow.t;
  findValuesInRange : list Value -> RangeContraints -> list TripleRow.t;
  findByEntity : string -> list TripleRow.t
}.

Definition tuplePath (collection : string) (path : string) : list Value :=
  VStr collection :: map VStr (Str.split "." path).

(** ** Index selector *)

Module Fulfilled.
(** [QueryFulfillmentTracker] *)
Record t := mk {
  where_ : list bool;
  order : list bool;
  after : bool
}.
(** [fulfilled.where[i] = true]; every index written by the selector is
    within the array. *)
Definition setWhere (i : nat) (f : t) : t :=
  mk (<[i := true]> (where_ f)) (order f) (after f).
End Fulfilled.

Definition getIdFilterFromQuery (query : CollectionQuery) : option string :=
  let idEqualityFilters :=
    List.filter (fun f => match f with
                          | FilterStatement p o _ => bool_decide (p = "id") && bool_decide (o = OpEq)
                          | _ => false
                          end) (whereList query) in
  match idEqualityFilters with
  | FilterStatement _ _ v :: _ => Some (appendCollectionToId (collectionName query) (toString v))
  | _ => None
  end.

Definition EQUALITY_OPS : list Operator := [OpEq].
Definition GT_OPS : list Operator := [OpGt; OpGte].
Definition LT_OPS : list Operator := [OpLt; OpLte].
Definition RANGE_OPS : list Operator := GT_OPS ++ LT_OPS.

(** [ops.includes(op)] *)
Definition includes (ops : list Operator) (op : Operator) : bool := bool_decide (op ∈ ops).

Inductive CandidateKind := equality | range.

Definition getCandidateDataTypeFromPath (path : string) (schema : option Models)
    (collection : string) : option DataType :=
  match schema with
  | None => None
  | Some s =>
      match getAttributeFromSchema s (Str.split "." path) collection with
      | None => None
      | Some d => if isQueryType d || isRecordType d then None else Some d
      end
  end.

(** The loop of [findCandidateFilter], entered at index [i]; [None] is the
    triple [[-1, undefined, undefined]]. *)
Fixpoint findCandidateFilterFrom (i : nat) (l : list WhereFilter)
    (schema : option Models) (collection : string)
    : option (nat * CandidateKind * option DataType) :=
  match l with
  | [] => None
  | FilterStatement path op _ :: rest =>
      if includes EQUALITY_OPS op then
        Some (i, equality, getCandidateDataTypeFromPath path schema collection)
      else if includes RANGE_OPS op then
        Some (i, range, getCandidateDataTypeFromPath path schema collection)
      else findCandidateFilterFrom (S i) rest schema collection
  | _ :: rest => findCandidateFilterFrom (S i) rest schema collection
  end.

Definition findCandidateFilter (query : CollectionQuery) (schema : option Models)
    : option (nat * CandidateKind * option DataType) :=
  match where_ query with
  | Some w => findCandidateFilterFrom 0 w schema (collectionName query)
  | None => None
  end.

Inductive RangeSide := side_gt | side_lt.

Fixpoint findRangeFilterFrom (i : nat) (l : list WhereFilter) (path : string)
    (type : RangeSide) : option nat :=
  match l with
  | [] => None
  | FilterStatement filterPath op _ :: rest =>
      if bool_decide (filterPath = path)
         && match type with
            | side_gt => includes GT_OPS op
            | side_lt => includes LT_OPS op
            end
      then Some i
      else findRangeFilterFrom (S i) rest path type
  | _ :: rest => findRangeFilterFrom (S i) rest path type
  end.

(** The search starts behind index [after_]. *)
Definition findRangeFilter (query : CollectionQuery) (path : string) (after_ : nat)
    (type : RangeSide) : option nat :=
  match where_ query with
  | None => None
  | Some w => findRangeFilterFrom (S after_) (drop (S after_) w) path type
  end.

Definition Stmt : Type := string * Operator * Value.

(** No value of the model is a date or an array. *)
Definition safeFilterRangeConstraint (v : Value) : Value := v.

Definition performRangeScan (tx : TripleStoreApi) (query : CollectionQuery)
    (filter_ : Stmt) (rangePair : option Stmt) : list TripleRow.t :=
  let '(path, op, _) := filter_ in
  let gtFilter := if includes GT_OPS op then Some filter_ else rangePair in
  let ltFilter := if includes LT_OPS op then Some filter_ else rangePair in
  let bound (f : option Stmt) (o : Operator) : option Value :=
    match f with
    | Some (_, o', v) => if bool_decide (o' = o) then Some (safeFilterRangeConstraint v) else None
    | None => None
    end in
  findValuesInRange tx (tuplePath (collectionName query) path)
    {| direction := None;
       greaterThan := bound gtFilter OpGt;
       greaterThanOrEqual := bound gtFilter OpGte;
       lessThan := bound ltFilter OpLt;
       lessThanOrEqual := bound ltFilter OpLte;
       greaterThanCursor := None;
       greaterThanOrEqualCursor := None;
       lessThanCursor := None;
       lessThanOrEqualCursor := None |}.

Definition performValueEqualityScan (tx : TripleStoreApi) (query : CollectionQuery)
    (filter_ : Stmt) : list TripleRow.t :=
  let '(path, _, v) := filter_ in
  findByAVE tx (tuplePath (collectionName query) path) v.

Definition performSetEqualityScan (tx : TripleStoreApi) (query : CollectionQuery)
    (filter_ : Stmt) : list TripleRow.t :=
  let '(path, _, v) := filter_ in
  findByAVE tx (tuplePath (collectionName query) path ++ [v]) (VBool true).

Definition performEqualityScan (tx : TripleStoreApi) (query : CollectionQuery)
    (filter_ : Stmt) (dataType : option DataType) : list TripleRow.t :=
  match dataType with
  | Some (QueryType _ _) | Some RecordType => []
  | Some SetType => performSetEqualityScan tx query filter_
  | _ => performValueEqualityScan tx query filter_
  end.

Definition statementAt (w : list WhereFilter) (i : nat) : option Stmt :=
  match w !! i with
  | Some (FilterStatement p o v) => Some (p, o, v)
  | _ => None
  end.

(** [mapGen(scan, (t) => t.id)]: the ids of the scanned triples, one per
    triple, in scan order. *)
Definition getFilterSetForQuery (tx : TripleStoreApi) (query : CollectionQuery)
    (schema : option Models) (fulfilled : Fulfilled.t)
    : option (list string) * Fulfilled.t :=
  match findCandidateFilter query schema with
  | None => (None, fulfilled)
  | Some (filterIdx, filterType, dataType) =>
      match statementAt (whereList query) filterIdx with
      | None => (None, fulfilled)
      | Some filterMatch =>
          match filterType with
          | range =>
              let fulfilled := Fulfilled.setWhere filterIdx fulfilled in
              let rangePairIndex :=
                findRangeFilter query filterMatch.1.1 filterIdx
                  (if includes GT_OPS filterMatch.1.2 then side_lt else side_gt) in
              let rangePair := rangePairIndex ≫= statementAt (whereList query) in
              let fulfilled :=
                match rangePairIndex with
                | Some j => Fulfilled.setWhere j fulfilled
                | None => fulfilled
                end in
              (Some (map TripleRow.id (performRangeScan tx query filterMatch rangePair)),
               fulfilled)
          | equality =>
              let fulfilled := Fulfilled.setWhere filterIdx fulfilled in
              (Some (map TripleRow.id (performEqualityScan tx query filterMatch dataType)),
               fulfilled)
          end
      end
  end.

(** A JavaScript [Set] of strings: its values in insertion order. *)
Module JsSet.
Definition t : Type := list string.
Definition empty : t := [].
Definition add (x : string) (s : t) : t :=
  if bool_decide (x ∈ s) then s else s ++ [x].
Definition delete (x : string) (s : t) : t :=
  List.filter (fun y => negb (String.eqb y x)) s.
Definition values (s : t) : list string := s.
Definition size (s : t) : nat := length s.
End JsSet.

(** An element of [Array.prototype.join]: [null] and [undefined] print as
    nothing. *)
Definition joinElem (v : Value) : string :=
  match v with
  | VUndefined | VNull => ""
  | _ => toString v
  end.

(** One turn of the loop over the ordered triples: keep, per entity and
    attribute, the greatest timestamp seen, and move the entity to the end of
    the set when a later version of the attribute shows up. *)
Definition orderSetStep (st : gmap string Timestamp * JsSet.t) (trip : TripleRow.t)
    : gmap string Timestamp * JsSet.t :=
  let '(entityAttributes, entityIds) := st in
  let entityAttrStr :=
    Str.join "-" (TripleRow.id trip :: map joinElem (TripleRow.attribute trip)) in
  match entityAttributes !! entityAttrStr with
  | None =>
      (<[entityAttrStr := TripleRow.timestamp trip]> entityAttributes,
       JsSet.add (TripleRow.id trip) entityIds)
  | Some currentTimestamp =>
      match timestampCompare (TripleRow.timestamp trip) currentTimestamp with
      | Gt =>
          (<[entityAttrStr := TripleRow.timestamp trip]> entityAttributes,
           JsSet.add (TripleRow.id trip) (JsSet.delete (TripleRow.id trip) entityIds))
      | _ => st
      end
  end.

(** Whether the schema walk along the first order attribute meets an
    undefined attribute or a relation, whichever comes first. *)
Fixpoint firstOrderBlocked (types : list (option DataType)) : bool :=
  match types with
  | [] => false
  | None :: _ => true
  | Some d :: rest => if isQueryType d then true else firstOrderBlocked rest
  end.

Definition getOrderSetForQuery (tx : TripleStoreApi) (query : CollectionQuery)
    (schema : option Models) (fulfilled : Fulfilled.t)
    : option (list string) * Fulfilled.t :=
  match order query with
  | None | Some [] => (None, fulfilled)
  | Some ((firstOrderAttr, firstOrderDirection) :: restOrder) =>
      let singleOrder := bool_decide (restOrder = []) in
      let attrPath := Str.split "." firstOrderAttr in
      let blocked :=
        match schema with
        | Some s => firstOrderBlocked (createSchemaIterator attrPath s (collectionName query))
        | None => false
        end in
      if blocked then (None, fulfilled)
      else
        let cursor := fst <$> after query in
        let inclusive := default false (snd <$> after query) in
        let gtArg :=
          if singleOrder then
            (if bool_decide (firstOrderDirection = ASC) then cursor else None)
          else None in
        let ltArg :=
          if singleOrder then
            (if bool_decide (firstOrderDirection = DESC) then cursor else None)
          else None in
        let fulfilled :=
          Fulfilled.mk (Fulfilled.where_ fulfilled)
            (<[0%nat := true]> (Fulfilled.order fulfilled))
            (match after query with
             | Some _ => bool_decide (is_Some gtArg) || bool_decide (is_Some ltArg)
             | None => true
             end) in
        let rangeParams :=
          {| direction := Some firstOrderDirection;
             greaterThan := None;
             greaterThanOrEqual := None;
             lessThan := None;
             lessThanOrEqual := None;
             greaterThanCursor := if inclusive then None else gtArg;
             greaterThanOrEqualCursor := if inclusive then gtArg else None;
             lessThanCursor := if inclusive then None else ltArg;
             lessThanOrEqualCursor := if inclusive then ltArg else None |} in
        let orderedTriples :=
          findValuesInRange tx (VStr (collectionName query) :: map VStr attrPath) rangeParams in
        let '(_, entityIds) := foldl orderSetStep (∅, JsSet.empty) orderedTriples in
        (Some (JsSet.values entityIds), fulfilled)
  end.

Definition getCollectionIds (tx : TripleStoreApi) (query : CollectionQuery) : list string :=
  map TripleRow.id (findByAVE tx [VStr "_collection"] (VStr (collectionName query))).

Record FetchFromStorageOptions := mkOptions {
  schema : option Models;
  skipRules : bool;
  stateVector : option (gmap string Z);
  skipIndex : bool
}.

Definition initialFulfilled (query : CollectionQuery) : Fulfilled.t :=
  Fulfilled.mk
    (match where_ query with Some w => replicate (length w) false | None => [] end)
    (match order query with Some o => replicate (length o) false | None => [] end)
    (negb (bool_decide (is_Some (after query)))).

(** The access paths in their order of precedence: id point, filter scan
    (equality or range), order scan, full collection scan. *)
Definition getCandidateEntityIds (tx : TripleStoreApi) (query : CollectionQuery)
    (options : FetchFromStorageOptions) : list string * Fulfilled.t :=
  let fulfilled := initialFulfilled query in
  if skipIndex options then (getCollectionIds tx query, fulfilled)
  else
    match getIdFilterFromQuery query with
    | Some entityId => ([entityId], fulfilled)
    | None =>
        match getFilterSetForQuery tx query (schema options) fulfilled with
        | (Some filterSet, fulfilled') => (filterSet, fulfilled')
        | (None, fulfilled') =>
            match getOrderSetForQuery tx query (schema options) fulfilled' with
            | (Some orderSet, fulfilled'') => (orderSet, fulfilled'')
            | (None, fulfilled'') => (getCollectionIds tx query, fulfilled'')
            end
        end
    end.

(** ** Results, errors and dynamic values *)

Definition dq : string := String (ascii_of_nat 34) EmptyString.

Inductive Error :=
| TriplitError (message : string)
| QueryNotPreparedError (message : string)
| TypeError.

(** The outcome of a call: a value, a thrown error, or no answer within the
    recursion depth granted to the model. *)
Inductive Result (A : Type) :=
| Ok (a : A)
| Throw (e : Error)
| OutOfFuel.
Arguments Ok {A} a.
Arguments Throw {A} e.
Arguments OutOfFuel {A}.

Definition rbind {A B} (r : Result A) (k : A -> Result B) : Result B :=
  match r with
  | Ok a => k a
  | Throw e => Throw e
  | OutOfFuel => OutOfFuel
  end.

(** Objects as the engine passes them around ([entity: any]): primitives,
    timestamped leaves [[value, timestamp]], plain objects and [Map]s, the
    latter two with their keys in insertion order. *)
Inductive Js :=
| JPrim (v : Value)
| JLeaf (v : Value) (ts : Timestamp)
| JObj (fields : list (string * Js))
| JMap (entries : list (string * Js)).

Definition undefined : Js := JPrim VUndefined.
Definition null : Js := JPrim VNull.

Definition isNullish (o : Js) : bool :=
  match o with
  | JPrim VUndefined | JPrim VNull => true
  | _ => false
  end.

Fixpoint assoc {A} (key : string) (l : list (string * A)) : option A :=
  match l with
  | [] => None
  | (k, a) :: r => if String.eqb k key then Some a else assoc key r
  end.

(** [o[key]] for a key that names an attribute. *)
Definition prop (o : Js) (key : string) : Result Js :=
  if isNullish o then Throw TypeError
  else match o with
       | JObj fs => Ok (default undefined (assoc key fs))
       | _ => Ok undefined
       end.

(** [o[0]] *)
Definition first (o : Js) : Result Js :=
  if isNullish o then Throw TypeError
  else match o with
       | JLeaf v _ => Ok (JPrim v)
       | JPrim (VStr (String c _)) => Ok (JPrim (VStr (String c EmptyString)))
       | _ => Ok undefined
       end.

(** [o?.[0]] *)
Definition firstOpt (o : Js) : Js :=
  match first o with
  | Ok v => v
  | _ => undefined
  end.

(** [obj[key] = v]: an existing key keeps its place, a new one goes last. *)
Fixpoint setField (key : string) (v : Js) (fs : list (string * Js)) : list (string * Js) :=
  match fs with
  | [] => [(key, v)]
  | (k, a) :: r => if String.eqb k key then (k, v) :: r else (k, a) :: setField key v r
  end.

Module QueryPipelineData.
Record t := mk {
  entity : Js;
  triples : list TripleRow.t;
  relationships : list (string * list TripleRow.t);
  existsFilterTriples : list TripleRow.t
}.
End QueryPipelineData.

(** ** Stages of the fetch pipeline *)

Section Stages.

(** [encodeValue] and [MIN] of the tuple database library. *)
Variable encodeValue : Js -> string.
Variable MIN : Js.

(** [satisfiesFilter] of [query/filters.js] on the query, the pipeline item
    and [where[filterIdx]] ([None] when the index is outside the array). *)
Variable satisfiesFilter :
  CollectionQuery -> QueryPipelineData.t -> option WhereFilter -> Result bool.

(** [getFilterPriorityOrder(query)] of [query/filters.js]; it is handed the
    query and nothing else. *)
Variable getFilterPriorityOrder : CollectionQuery -> list nat.

(** The loop of [ApplyFilters] over the priority order, with the indices
    of the clauses handed to [satisfiesFilter], in the order of the calls. *)
Fixpoint applyFilterOrder (query : CollectionQuery) (w : list WhereFilter)
    (item : QueryPipelineData.t) (filterOrder : list nat) : Result bool * list nat :=
  match filterOrder with
  | [] => (Ok true, [])
  | filterIdx :: rest =>
      match satisfiesFilter query item (w !! filterIdx) with
      | Ok true =>
          let '(r, evaluated) := applyFilterOrder query w item rest in
          (r, filterIdx :: evaluated)
      | Ok false => (Ok false, [filterIdx])
      | Throw e => (Throw e, [filterIdx])
      | OutOfFuel => (OutOfFuel, [filterIdx])
      end
  end.

Definition ApplyFilters (query : CollectionQuery) (item : QueryPipelineData.t)
    : Result bool * list nat :=
  if isNullish (QueryPipelineData.entity item) then (Ok false, [])
  else match where_ query with
       | None => (Ok true, [])
       | Some w => applyFilterOrder query w item (getFilterPriorityOrder query)
       end.

(** The three flags a [FilterAfterCursor] closure keeps between calls. *)
Record CursorState := mkCursorState {
  cursorValueReached : bool;
  cursorValuePassed : bool;
  idReached : bool
}.

Definition initialCursorState : CursorState := mkCursorState false false false.

(** One call of the predicate returned by [FilterAfterCursor(query)]. *)
Definition FilterAfterCursor (query : CollectionQuery) (st : CursorState)
    (id : string) (entity : Js) : Result bool * CursorState :=
  match after query with
  | None => (Ok true, st)
  | Some (cursor, inclusive) =>
      if (cursorValueReached st && idReached st) || cursorValuePassed st then (Ok true, st)
      else
        let '(orderAttr, orderDir) :=
          match order query with
          | Some (o :: _) => o
          | _ => ("id", ASC)
          end in
        match rbind (prop entity orderAttr) first with
        | Ok entityVal =>
            let '(cursorVal, cursorId) := cursor in
            let encodedCursorVal := encodeValue (JPrim cursorVal) in
            let encodedEntityVal := encodeValue entityVal in
            let st' :=
              if String.eqb encodedEntityVal encodedCursorVal then
                let storeId := appendCollectionToId (collectionName query) id in
                mkCursorState true (cursorValuePassed st)
                  (if String.eqb storeId cursorId then true else idReached st)
              else if (match orderDir with
                       | ASC => Str.gtb encodedEntityVal encodedCursorVal
                       | DESC => Str.ltb encodedEntityVal encodedCursorVal
                       end)
              then mkCursorState (cursorValueReached st) true (idReached st)
              else st in
            (Ok (inclusive &&
                 ((cursorValueReached st' && idReached st') || cursorValuePassed st')), st')
        | Throw e => (Throw e, st)
        | OutOfFuel => (OutOfFuel, st)
        end
  end.

(** [pipeline.filter(FilterAfterCursor(query))] over the items that reach
    the stage: the closure is created once and its flags carry over. *)
Fixpoint filterAfterCursorFrom (query : CollectionQuery) (st : CursorState)
    (items : list (string * Js)) : Result (list (string * Js)) :=
  match items with
  | [] => Ok []
  | (id, entity) :: rest =>
      match FilterAfterCursor query st id entity with
      | (Ok keep, st') =>
          rbind (filterAfterCursorFrom query st' rest)
                (fun kept => Ok (if keep then (id, entity) :: kept else kept))
      | (Throw e, _) => Throw e
      | (OutOfFuel, _) => OutOfFuel
      end
  end.

Definition filterAfterCursor (query : CollectionQuery) (items : list (string * Js))
    : Result (list (string * Js)) :=
  filterAfterCursorFrom query initialCursorState items.

(** [path.reduce((acc, key) => acc[key], entity)] *)
Fixpoint getPropertyFromPath (entity : Js) (path : list string) : Result Js :=
  match path with
  | [] => Ok entity
  | key :: rest => rbind (prop entity key) (fun acc => getPropertyFromPath acc rest)
  end.

(** [value ?? MIN] *)
Definition orMIN (v : Js) : Js := if isNullish v then MIN else v.

(** The sign of the comparison of two entities on one order entry. *)
Definition compareOn (entry : string * Direction) (a b : Js) : Result Z :=
  let '(prop_, dir) := entry in
  rbind (getPropertyFromPath a (Str.split "." prop_)) (fun pa =>
  rbind (getPropertyFromPath b (Str.split "." prop_)) (fun pb =>
    let encodedA := encodeValue (orMIN (firstOpt pa)) in
    let encodedB := encodeValue (orMIN (firstOpt pb)) in
    let direction_ :=
      if Str.ltb encodedA encodedB then -1
      else if Str.gtb encodedA encodedB then 1 else 0 in
    Ok (match dir with ASC => direction_ | DESC => direction_ * -1 end))).

Fixpoint querySorterOn (entries : list (string * Direction)) (a b : Js) : Result Z :=
  match entries with
  | [] => Ok 0
  | entry :: rest =>
      rbind (compareOn entry a b) (fun c =>
        if c =? 0 then querySorterOn rest a b else Ok c)
  end.

(** [querySorter(query)(a, b)]; iterating an absent [order] throws. *)
Definition querySorter (query : CollectionQuery) (a b : Js) : Result Z :=
  match order query with
  | Some entries => querySorterOn entries a b
  | None => Throw TypeError
  end.

(** [Array.prototype.sort] with a comparator: a stable sort, here by
    insertion from the right. *)
Fixpoint insertBy {A} (cmp : A -> A -> Result Z) (x : A) (sorted : list A)
    : Result (list A) :=
  match sorted with
  | [] => Ok [x]
  | y :: rest =>
      rbind (cmp x y) (fun c =>
        if c <=? 0 then Ok (x :: y :: rest)
        else rbind (insertBy cmp x rest) (fun rest' => Ok (y :: rest')))
  end.

Fixpoint sortBy {A} (cmp : A -> A -> Result Z) (l : list A) : Result (list A) :=
  match l with
  | [] => Ok []
  | x :: rest => rbind (sortBy cmp rest) (insertBy cmp x)
  end.

Definition sortEntities (query : CollectionQuery) (entities : list (string * Js))
    : Result (list (string * Js)) :=
  match order query with
  | None => Ok entities
  | Some _ => sortBy (fun a b => querySorter query a.2 b.2) entities
  end.

End Stages.

(** Modelled from the spec: [getFilterPriorityOrder] of [query/filters.js],
    absent from the sources: "cheap first ... boolean literal > scalar
    equality > range > set membership > group > subquery". Every index of
    [where] appears once; clauses of one class keep their order. Statements
    with another operator are ranked with set membership. *)
Definition filterCost (f : WhereFilter) : nat :=
  match f with
  | BooleanFilter _ => 0
  | FilterStatement _ op _ =>
      if includes EQUALITY_OPS op then 1
      else if includes RANGE_OPS op then 2
      else 3
  | FilterGroup _ _ => 4
  | SubQueryFilter _ | ExistsFilter _ _ => 5
  end%nat.

Definition indicesOfCost (w : list WhereFilter) (c : nat) : list nat :=
  map fst (List.filter (fun p => Nat.eqb (filterCost p.2) c) (imap pair w)).

Definition filterPriorityOrder (query : CollectionQuery) : list nat :=
  concat (map (indicesOfCost (whereList query)) (seq 0 6)).

(** ** Variables *)

(** Modelled from the spec: the variable helpers of [db-helpers.js], absent
    from the sources: "Variables are textual, $<scope>.<path>", the scopes
    being [global], [session], [query], [role] and the ancestor numbers; a
    name whose first component is no scope is unscoped; the referential
    variables are the ones scoped by an ancestor number. *)
Definition isValueVariable (v : Value) : bool :=
  match v with
  | VStr (String c _) => Ascii.eqb c "$"
  | _ => false
  end.

Definition VARIABLE_SCOPES : list string := ["global"; "session"; "query"; "role"].

Definition getVariableComponents (variable : string) : option string * string :=
  match Str.split "." (Str.drop 1 variable) with
  | scope :: (_ :: _) as rest =>
      if bool_decide (is_Some (Str.parseInt scope)) || bool_decide (scope ∈ VARIABLE_SCOPES)
      then (Some scope, Str.join "." rest)
      else (None, Str.drop 1 variable)
  | _ => (None, Str.drop 1 variable)
  end.

Definition isValueReferentialVariable (v : Value) : bool :=
  isValueVariable v &&
  match (getVariableComponents (toString v)).1 with
  | Some scope => bool_decide (is_Some (Str.parseInt scope))
  | None => false
  end.

Definition createVariable (scope : option string) (path : string) : string :=
  match scope with
  | Some s => "$" +:+ s +:+ "." +:+ path
  | None => "$" +:+ path
  end.

(** ** Root permutation: reversing a relation filter *)

(** [REVERSE_OPERATOR_MAPPINGS[op]]; [None] is the [undefined] a missing key
    reads as. *)
Definition REVERSE_OPERATOR_MAPPINGS (op : Operator) : option Operator :=
  match op with
  | OpEq => Some OpEq
  | OpNeq => Some OpNeq
  | OpLt => Some OpGt
  | OpGt => Some OpLt
  | OpLte => Some OpGte
  | OpGte => Some OpLte
  | OpIn => Some OpHas
  | OpNin => Some OpNotHas
  | OpHas => Some OpIn
  | OpNotHas => Some OpNin
  | OpLike | OpNlike | OpIsDefined => None
  end.

(** The reversed statement [[key, REVERSE_OPERATOR_MAPPINGS[op], variable]];
    the source casts it to a filter statement whatever the operator read. *)
Definition reverseRelationFilter (filter_ : Stmt)
    : Result (string * option Operator * Value) :=
  let '(path, op, value) := filter_ in
  if negb (isValueReferentialVariable value) then
    Throw (TriplitError
             ("Expected filter value to be a relation variable, but got " +:+ toString value))
  else
    let '(scope, key) := getVariableComponents (toString value) in
    Ok (key, REVERSE_OPERATOR_MAPPINGS op, VStr (createVariable scope path)).

(** ** Execution context and sub-query loader *)

(** [FetchExecutionContext]: the frames of the ancestors, innermost last. *)
Record FetchExecutionContext := mkContext { queriedDataStack : list Js }.

Definition initialFetchExecutionContext : FetchExecutionContext := mkContext [].

(** A computation on the execution context. An error leaves the context as
    the failing step found it: nothing unwinds it. *)
Definition M (A : Type) : Type :=
  FetchExecutionContext -> Result A * FetchExecutionContext.

Definition ret {A} (a : A) : M A := fun ctx => (Ok a, ctx).

Definition lift {A} (r : Result A) : M A := fun ctx => (r, ctx).

Definition bind {A B} (m : M A) (k : A -> M B) : M B :=
  fun ctx =>
    match m ctx with
    | (Ok a, ctx') => k a ctx'
    | (Throw e, ctx') => (Throw e, ctx')
    | (OutOfFuel, ctx') => (OutOfFuel, ctx')
    end.

Notation "x <- m ;; k" := (bind m (fun x => k))
  (at level 100, m at next level, right associativity).

Definition getStack : M (list Js) := fun ctx => (Ok (queriedDataStack ctx), ctx).

(** [ctx.queriedDataStack = [...ctx.queriedDataStack, frame]] *)
Definition pushFrame (frame : Js) : M unit :=
  fun ctx => (Ok tt, mkContext (queriedDataStack ctx ++ [frame])).

(** [ctx.queriedDataStack.pop()] *)
Definition popFrame : M unit :=
  fun ctx => (Ok tt, mkContext (removelast (queriedDataStack ctx))).

(** A call handed a context of its own, [initialFetchExecutionContext()]. *)
Definition withFreshContext {A} (m : M A) : M A :=
  fun ctx => ((m initialFetchExecutionContext).1, ctx).

Fixpoint forEachM {A} (f : A -> M unit) (l : list A) : M unit :=
  match l with
  | [] => ret tt
  | x :: rest => _ <- f x ;; forEachM f rest
  end.

Module FetchResult.
(** [results] is a [Map] for [fetch], an entity or [null] for [fetchOne]. *)
Record t := mk {
  results : Js;
  triples : list (string * list TripleRow.t)
}.
End FetchResult.

Fixpoint setKey {A} (key : string) (v : A) (fs : list (string * A)) : list (string * A) :=
  match fs with
  | [] => [(key, v)]
  | (k, a) :: r => if String.eqb k key then (k, v) :: r else (k, a) :: setKey key v r
  end.

(** [{...a, ...b}] *)
Definition spreadOver {A} (a b : list (string * A)) : list (string * A) :=
  foldl (fun acc kv => setKey kv.1 kv.2 acc) a b.

(** The own fields an object spreads; anything else spreads nothing. *)
Definition fieldsOf (o : Js) : list (string * Js) :=
  match o with
  | JObj fs => fs
  | _ => []
  end.

Definition deleteKey {A} (key : string) (fs : list (string * A)) : list (string * A) :=
  List.filter (fun kv => negb (String.eqb kv.1 key)) fs.

Definition withWhere (q : CollectionQuery) (w : option (list WhereFilter)) : CollectionQuery :=
  let 'mkQuery c _ o l a s i v := q in mkQuery c w o l a s i v.
Definition withLimit (q : CollectionQuery) (l : option nat) : CollectionQuery :=
  let 'mkQuery c w o _ a s i v := q in mkQuery c w o l a s i v.
Definition withAfter (q : CollectionQuery) (a : option (Cursor * bool)) : CollectionQuery :=
  let 'mkQuery c w o l _ s i v := q in mkQuery c w o l a s i v.
Definition withInclude (q : CollectionQuery) (i : option (list (string * QueryInclusion)))
    : CollectionQuery :=
  let 'mkQuery c w o l a s _ v := q in mkQuery c w o l a s i v.
Definition withVars (q : CollectionQuery) (v : option (list (string * Value))) : CollectionQuery :=
  let 'mkQuery c w o l a s i _ := q in mkQuery c w o l a s i v.

(** The session of the caller: [systemVars.global], [systemVars.session] and
    the [roleVars] of the session roles. *)
Record Caller := mkCaller {
  systemVarsGlobal : option (list (string * Js));
  systemVarsSession : option (list (string * Js));
  sessionRoles : option (list (list (string * Js)))
}.

(** The key a value makes when it indexes an object. *)
Definition keyOf (o : Js) : string :=
  match o with
  | JPrim v => toString v
  | _ => "[object Object]"
  end.

Definition getRelationsFromIdentifier (identifier : string) (schema : Models)
    (collection : string) : list (string * (CollectionQuery * QueryResultCardinality)) :=
  omap (fun p => match getAttributeFromSchema schema p collection with
                 | Some (QueryType q c) => Some (Str.join "." p, (q, c))
                 | _ => None
                 end)
       (prefixes (Str.split "." identifier)).

Definition getRelationPathsFromIdentifier (identifier : string) (schema : Models)
    (collection : string) : list string :=
  map fst (getRelationsFromIdentifier identifier schema collection).

Definition identifierIncludesRelation (identifier : string) (schema : Models)
    (collection : string) : bool :=
  negb (bool_decide (getRelationPathsFromIdentifier identifier schema collection = [])).

Definition getQueryVariables (query : CollectionQuery) (session : Caller)
    (executionContext : FetchExecutionContext) : list (string * Js) :=
  let stack := queriedDataStack executionContext in
  let queryVars := map (fun kv => (kv.1, JPrim kv.2)) (default [] (vars query)) in
  let conflictingVariables :=
    spreadOver
      (spreadOver
         (spreadOver (default [] (systemVarsGlobal session))
                     (default [] (systemVarsSession session)))
         queryVars)
      (foldl (fun acc val => spreadOver acc (fieldsOf val)) [] stack) in
  let scopedVariables :=
    spreadOver
      [("global", JObj (default [] (systemVarsGlobal session)));
       ("session", JObj (default [] (systemVarsSession session)));
       ("query", JObj queryVars);
       ("role",
        if bool_decide (collectionName query = "_metadata") then undefined
        else match sessionRoles session with
             | Some roles => JObj (foldl spreadOver [] roles)
             | None => undefined
             end)]
      (imap (fun i val => (pretty (Z.of_nat (length stack - i)), val)) stack) in
  spreadOver conflictingVariables scopedVariables.

Section Loader.

Variable caller : Caller.

(** [timestampedObjectToPlainObject] of [utils.js], the value conversion of
    the collection schema, [prepareQuery] of [query/prepare.js] and
    [replaceVariablesInFilterStatements] of [db-helpers.js]. *)
Variable timestampedObjectToPlainObject : Js -> Js.
Variable convertDBValueToJS : Models -> string -> Js -> Js.
Variable prepareQuery :
  CollectionQuery -> option Models -> Caller -> bool -> Result CollectionQuery.
Variable replaceVariablesInFilterStatements :
  list WhereFilter -> list (string * Js) -> list WhereFilter.

(** The call of [fetch] a sub-query makes. *)
Variable innerFetch :
  TripleStoreApi -> CollectionQuery -> FetchFromStorageOptions -> M FetchResult.t.

Definition convertEntityToJS (entity : Js) (schema : option Models)
    (collection : string) : Result Js :=
  let untimestampedEntity := timestampedObjectToPlainObject entity in
  if isNullish untimestampedEntity then Throw TypeError
  else
    let untimestampedEntity :=
      match untimestampedEntity with
      | JObj fs => JObj (deleteKey "_collection" fs)
      | o => o
      end in
    match schema with
    | Some s =>
        match properties s collection with
        | Some _ => Ok (convertDBValueToJS s collection untimestampedEntity)
        | None => Ok untimestampedEntity
        end
    | None => Ok untimestampedEntity
    end.

Definition extractSubqueryVarsFromEntity (entity : Js) (schema : option Models)
    (collection : string) : Result Js :=
  rbind
    (match schema with
     | Some s =>
         match properties s collection with
         | None => Throw TypeError
         | Some props =>
             let emptyObj :=
               foldl (fun v p => if isQueryType p.2 then v else setKey p.1 undefined v)
                     [] props in
             rbind (convertEntityToJS entity schema collection) (fun js =>
               Ok (spreadOver emptyObj (fieldsOf js)))
         end
     | None => Ok (fieldsOf (timestampedObjectToPlainObject entity))
     end)
    (fun vars_ => Ok (JObj (setKey "_collection" (JPrim (VStr collection)) vars_))).

Definition fetchOne (tx : TripleStoreApi) (query : CollectionQuery)
    (options : FetchFromStorageOptions) : M FetchResult.t :=
  fetchResult <- innerFetch tx (withLimit query (Some 1%nat)) options ;;
  ret (FetchResult.mk
         (match FetchResult.results fetchResult with
          | JMap ((_, e) :: _) => if isNullish e then null else e
          | _ => null
          end)
         (FetchResult.triples fetchResult)).

Definition loadSubquery (tx : TripleStoreApi) (parentQuery subquery : CollectionQuery)
    (cardinality : QueryResultCardinality) (options : FetchFromStorageOptions)
    (entity : Js) : M FetchResult.t :=
  entityVars <- lift (extractSubqueryVarsFromEntity entity (schema options)
                        (collectionName parentQuery)) ;;
  _ <- pushFrame entityVars ;;
  let fullSubquery :=
    withVars subquery
      (Some (spreadOver (default [] (vars parentQuery)) (default [] (vars subquery)))) in
  fullSubquery <- lift (prepareQuery fullSubquery (schema options) caller
                          (skipRules options)) ;;
  result <- match cardinality with
            | one => fetchOne tx fullSubquery options
            | many => innerFetch tx fullSubquery options
            end ;;
  _ <- popFrame ;;
  ret result.

Definition cardinalityManyMessage : string :=
  "Cannot load variables with cardinality " +:+ dq +:+ "many" +:+ dq.

(** [referenceEntity[key] = v] on the frame at [stackLocation]. *)
Definition setFrameField (stackLocation : nat) (key : string) (v : Js) : M unit :=
  fun ctx =>
    (Ok tt,
     mkContext (alter (fun frame => JObj (setKey key v (fieldsOf frame)))
                      stackLocation (queriedDataStack ctx))).

Definition loadRelationshipsIntoContextFromVariable (variable : string)
    (tx : TripleStoreApi) (options : FetchFromStorageOptions) : M unit :=
  match schema options with
  | None => ret tt
  | Some s =>
      let '(scope, key) := getVariableComponents variable in
      match Str.parseInt (default "" scope) with
      | None => ret tt
      | Some parsedScope =>
          stack <- getStack ;;
          let stackLocation := Z.of_nat (length stack) - parsedScope in
          let referenceEntity :=
            if 0 <=? stackLocation then default undefined (stack !! Z.to_nat stackLocation)
            else undefined in
          collection <- lift (prop referenceEntity "_collection") ;;
          let relationEntries := getRelationsFromIdentifier key s (keyOf collection) in
          match relationEntries, last relationEntries with
          | rootRelation :: _, Some deepestRelation =>
              let pathParts := Str.split "." deepestRelation.1 in
              let '(rootQuery, rootCardinality) := rootRelation.2 in
              if negb (bool_decide (rootCardinality = one)) then
                lift (Throw (TriplitError cardinalityManyMessage))
              else
                let includeStatement :=
                  foldl (fun include_ k => NestedInclusion [(k, include_)])
                        (InclusionShorthand false) (reverse (drop 1 pathParts)) in
                let subquery :=
                  match includeStatement with
                  | NestedInclusion fs => withInclude rootQuery (Some fs)
                  | _ => rootQuery
                  end in
                loaded <- withFreshContext
                            (loadSubquery tx
                               (mkQuery (keyOf collection) None None None None None None None)
                               subquery rootCardinality options referenceEntity) ;;
                setFrameField (Z.to_nat stackLocation) (default "" (head pathParts))
                  (timestampedObjectToPlainObject (FetchResult.results loaded))
          | _, _ => ret tt
          end
      end
  end.

Definition replaceVariablesInQuery (tx : TripleStoreApi) (query : CollectionQuery)
    (options : FetchFromStorageOptions) : M CollectionQuery :=
  _ <- forEachM
         (fun clause =>
            match clause with
            | FilterStatement _ _ val =>
                if isValueVariable val
                then loadRelationshipsIntoContextFromVariable (toString val) tx options
                else ret tt
            | _ => ret tt
            end)
         (List.filter isFilterStatement (whereList query)) ;;
  fun ctx =>
    let vars_ := getQueryVariables query caller ctx in
    (Ok (withWhere query
           ((fun w => replaceVariablesInFilterStatements w vars_) <$> where_ query)),
     ctx).

End Loader.

Section Fetch.

Variable caller : Caller.
Variable timestampedObjectToPlainObject : Js -> Js.
Variable convertDBValueToJS : Models -> string -> Js -> Js.
Variable prepareQuery :
  CollectionQuery -> option Models -> Caller -> bool -> Result CollectionQuery.
Variable replaceVariablesInFilterStatements :
  list WhereFilter -> list (string * Js) -> list WhereFilter.

(** The body of [fetch] past the replacement of the variables: candidate
    selection and the pipeline, on the query with its variables inserted
    and on the query as given. *)
Variable fetchPipeline :
  TripleStoreApi -> CollectionQuery -> CollectionQuery -> FetchFromStorageOptions ->
  M FetchResult.t.

(** [fetch], with a bound on the depth of the calls that load a relation
    for a variable. No cache is configured. *)
Fixpoint fetch (fuel : nat) (tx : TripleStoreApi) (query : CollectionQuery)
    (options : FetchFromStorageOptions) : M FetchResult.t :=
  match fuel with
  | O => lift OutOfFuel
  | S n =>
      queryWithInsertedVars <-
        replaceVariablesInQuery caller timestampedObjectToPlainObject convertDBValueToJS
          prepareQuery replaceVariablesInFilterStatements (fetch n) tx query options ;;
      fetchPipeline tx queryWithInsertedVars query options
  end.

End Fetch.

(** ** Delta engine: the state vector ahead of a set of new triples *)

Module Entity.
(** The [Entity] of [query.js]: the timestamped data and the triples it
    was folded from. *)
Record t := mk {
  data : Js;
  triples : list TripleRow.t
}.
End Entity.

(** One turn of the [reduce] that derives the state vector. *)
Definition stateVectorStep (acc : gmap string Z) (curr : TripleRow.t) : gmap string Z :=
  let '(tick, clientId) := TripleRow.timestamp curr in
  match acc !! clientId with
  | None => <[clientId := Z.max (tick - 1) 0]> acc
  | Some known =>
      if tick <? known + 1 then <[clientId := Z.max (tick - 1) 0]> acc else acc
  end.

Definition deltaStateVector (newTriples : list TripleRow.t) : gmap string Z :=
  foldl stateVectorStep ∅ newTriples.

(** The new triples grouped by entity id, ids in order of first appearance. *)
Definition changedEntityTriples (newTriples : list TripleRow.t)
    : list (string * list TripleRow.t) :=
  foldl (fun entities trip =>
           setKey (TripleRow.id trip)
                  (default [] (assoc (TripleRow.id trip) entities) ++ [trip])
                  entities)
        [] newTriples.

Section Delta.

(** [triplesToEntities] of [query.js]: the entities folded from the
    triples, bounded by a state vector when one is given. *)
Variable triplesToEntities :
  list TripleRow.t -> option (gmap string Z) -> list (string * Entity.t).

Definition getEntitiesAtStateVector (collectionTriples : list TripleRow.t)
    (stateVector_ : option (gmap string Z)) : list (string * Entity.t) :=
  triplesToEntities collectionTriples
    (match stateVector_ with
     | Some sv => if (0 <? size sv)%nat then Some sv else None
     | None => None
     end).

(** The two views [fetchDeltaTriples] takes of a changed entity. *)
Definition entityBeforeStateVector (tx : TripleStoreApi) (newTriples : list TripleRow.t)
    (changedEntityId : string) : Js :=
  let entityTriples := findByEntity tx changedEntityId in
  match assoc changedEntityId
          (getEntitiesAtStateVector entityTriples (Some (deltaStateVector newTriples))) with
  | Some e => Entity.data e
  | None => undefined
  end.

Definition entityAfterStateVector (tx : TripleStoreApi) (changedEntityId : string) : Js :=
  let entityTriples := findByEntity tx changedEntityId in
  match assoc changedEntityId (getEntitiesAtStateVector entityTriples None) with
  | Some e => Entity.data e
  | None => undefined
  end.

End Delta.

(** [m] is the least tick among the triples of [newTriples] stamped by
    [clientId]. *)
Definition minTickOf (newTriples : list TripleRow.t) (clientId : string) (m : Z) : Prop :=
  (∃ t, t ∈ newTriples ∧ TripleRow.timestamp t = (m, clientId)) ∧
  (∀ t, t ∈ newTriples → (TripleRow.timestamp t).2 = clientId →
        m <= (TripleRow.timestamp t).1).

Definition clientIds (newTriples : list TripleRow.t) : list string :=
  map (fun t => (TripleRow.timestamp t).2) newTriples.

(** ** Live subscription: the write handler *)

Module WriteOps.
(** What one storage scope contributes to a write batch. *)
Record t := mk {
  inserts : list TripleRow.t;
  deletes : list TripleRow.t
}.
End WriteOps.

Module Subscription.
(** The two variables [results] and [triples] a subscription maintains
    between writes, both [Map]s in insertion order. *)
Record t := mk {
  results : list (string * Js);
  triples : list (string * list TripleRow.t)
}.
End Subscription.

(** What the handler does to its callbacks. *)
Inductive Event :=
| OnResults (results : list (string * Js)) (triples : list (string * list TripleRow.t))
| OnError (e : Error).

(** [new Set(...)] of a list. *)
Definition setOfList (l : list string) : JsSet.t :=
  foldl (fun s x => JsSet.add x s) JsSet.empty l.

Definition updatedEntitiesForQuery (query : CollectionQuery)
    (storeWrites : list (string * WriteOps.t)) : JsSet.t :=
  let allInserts := flat_map (fun ops => WriteOps.inserts ops.2) storeWrites in
  let allDeletes := flat_map (fun ops => WriteOps.deletes ops.2) storeWrites in
  setOfList
    (map snd
       (List.filter (fun parts => String.eqb parts.1 (collectionName query))
          (map (fun t => splitIdParts (TripleRow.id t)) (allInserts ++ allDeletes)))).

Fixpoint mapResult {A B} (f : A -> Result B) (l : list A) : Result (list B) :=
  match l with
  | [] => Ok []
  | x :: rest => rbind (f x) (fun y => rbind (mapResult f rest) (fun ys => Ok (y :: ys)))
  end.

Section SubscriptionHandler.

Variable timestampedObjectToPlainObject : Js -> Js.
Variable convertDBValueToJS : Models -> string -> Js -> Js.

(** [someFilterStatements] of [query/filters.js]. *)
Variable someFilterStatements : list WhereFilter -> (WhereFilter -> bool) -> bool.

(** [fetch] as the handler calls it. *)
Variable fetch_ :
  TripleStoreApi -> CollectionQuery -> FetchFromStorageOptions -> M FetchResult.t.

(** The statements of the handler behind the early return, from
    [let queryShouldRefire = false] to the last [onResults], on the updated
    entities and the maintained state. *)
Variable reconcile :
  TripleStoreApi -> option (list WhereFilter) -> CollectionQuery ->
  FetchFromStorageOptions -> JsSet.t -> Subscription.t ->
  Result (Subscription.t * list Event).

(** The test that sends a query to the branch that fetches anew. *)
Definition hasNestedQueries (where' : option (list WhereFilter)) (query : CollectionQuery)
    (options : FetchFromStorageOptions) : bool :=
  match where' with
  | Some w => someFilterStatements w isSubQueryFilter
  | None => false
  end
  || match include query with
     | Some i => (0 <? length i)%nat
     | None => false
     end
  || match order query with
     | Some o =>
         existsb (fun entry =>
                    match schema options with
                    | Some s => identifierIncludesRelation entry.1 s (collectionName query)
                    | None => false
                    end) o
     | None => false
     end.

(** The argument of [onResults]: every entity converted for the caller. *)
Definition resultsEvent (query : CollectionQuery) (options : FetchFromStorageOptions)
    (st : Subscription.t) : Event :=
  match mapResult (fun kv =>
                     rbind (convertEntityToJS timestampedObjectToPlainObject
                              convertDBValueToJS kv.2 (schema options) (collectionName query))
                           (fun js => Ok (kv.1, js)))
                  (Subscription.results st) with
  | Ok rs => OnResults rs (Subscription.triples st)
  | Throw e => OnError e
  | OutOfFuel => OnError TypeError
  end.

Definition entriesOf (o : Js) : list (string * Js) :=
  match o with
  | JMap es => es
  | _ => []
  end.

(** The callback given to [tripleStore.onWrite]: the state it leaves and
    the calls it makes, for one write batch. [where'] is the [where] of the
    query with its variables replaced, computed when the subscription
    started. An error is caught and handed to [onError]. *)
Definition onWrite (tx : TripleStoreApi) (where' : option (list WhereFilter))
    (query : CollectionQuery) (options : FetchFromStorageOptions)
    (storeWrites : list (string * WriteOps.t)) (st : Subscription.t)
    : Result (Subscription.t * list Event) :=
  if hasNestedQueries where' query options then
    match (fetch_ tx query
             (mkOptions (schema options) (skipRules options) None (skipIndex options))
             initialFetchExecutionContext).1 with
    | Ok fetchResult =>
        let st' := Subscription.mk (entriesOf (FetchResult.results fetchResult))
                                   (FetchResult.triples fetchResult) in
        Ok (st', [resultsEvent query options st'])
    | Throw e => Ok (st, [OnError e])
    | OutOfFuel => OutOfFuel
    end
  else
    let updated := updatedEntitiesForQuery query storeWrites in
    if (JsSet.size updated =? 0)%nat then Ok (st, [])
    else reconcile tx where' query options updated st.

End SubscriptionHandler.

(** ** Predicates used in the statements *)

(** Every element stands in [R] to its successor in the list. *)
Definition adjacent {A} (R : A -> A -> Prop) (l : list A) : Prop :=
  ∀ i x y, l !! i = Some x → l !! S i = Some y → R x y.

(** ** Relations of an identifier, continued *)

Fixpoint firstRelationPath (schema : Models) (collection : string)
    (paths : list (list string)) : option string :=
  match paths with
  | [] => None
  | p :: rest =>
      match getAttributeFromSchema schema p collection with
      | Some (QueryType _ _) => Some (Str.join "." p)
      | _ => firstRelationPath schema collection rest
      end
  end.

(** The path of the first relation met on the way along the identifier;
    [None] is [undefined]. *)
Definition getRootRelationAlias (identifier : string) (schema : Models)
    (collection : string) : option string :=
  firstRelationPath schema collection (prefixes (Str.split "." identifier)).

(** ** Variables of a sub-query, one level further down *)

(** [Number.MAX_SAFE_INTEGER] *)
Definition MAX_SAFE_INTEGER : Z := 2 ^ 53 - 1.

(** [bumpSubqueryVar]. The source adds one to a floating point number and
    prints it: the model follows it while the number read from the prefix is
    a safe integer, and has [None] beyond. *)
Definition bumpSubqueryVar (varName : string) : option string :=
  match Str.indexOf "." varName with
  | None => Some varName
  | Some splitIdx =>
      let prefix := Str.take splitIdx varName in
      let rest := Str.drop (S splitIdx) varName in
      match Str.parseInt prefix with
      | None => Some varName
      | Some intPrefix =>
          if Z.abs intPrefix <=? MAX_SAFE_INTEGER
          then Some (pretty (intPrefix + 1) +:+ "." +:+ rest)
          else None
      end
  end.

Definition bumpSubqueryVars {A} (vars_ : list (string * A)) : option (list (string * A)) :=
  foldl (fun acc kv =>
           match acc, bumpSubqueryVar kv.1 with
           | Some acc', Some key => Some (setKey key kv.2 acc')
           | _, _ => None
           end)
        (Some []) vars_.

(** ** Triples behind a state vector *)

Section StateVectorScan.

(** [tx.findAllClientIds()] and [tx.findByClientTimestamp(clientId, 'gt', ts)]
    of the triple store. *)
Variable findAllClientIds : list string.
Variable findByClientTimestampGt : string -> Timestamp -> list TripleRow.t.

(** [new Map(allClientIds.map(...))]: a client the vector does not know
    starts at tick 0. *)
Definition completeStateVector (stateVector_ : gmap string Z) : list (string * Z) :=
  foldl (fun m clientId => setKey clientId (default 0 (stateVector_ !! clientId)) m)
        [] findAllClientIds.

Definition getTriplesAfterStateVector (stateVector_ : gmap string Z) : list TripleRow.t :=
  flat_map (fun entry => findByClientTimestampGt entry.1 (entry.2, entry.1))
           (completeStateVector stateVector_).

End StateVectorScan.

(** ** Matching an entity against the simple part of a where clause *)

Definition isFilterGroup (f : WhereFilter) : bool :=
  match f with FilterGroup _ _ => true | _ => false end.

Section BasicWhere.

(** The schema of one collection, [getSchemaFromPath] of [schema.js], and the
    two tests of [query/filters.js]. *)
Variable Model : Type.
Variable getSchemaFromPath : Model -> list string -> option DataType.
Variable satisfiesSetFilter : Js -> string -> Operator -> Value -> bool.
Variable satisfiesRegisterFilter : Js -> string -> Operator -> Value -> bool.

(** The [Map] from a path to the operators and values asked of it. *)
Definition groupByPath (filters : list Stmt) : list (string * list (Operator * Value)) :=
  foldl (fun groups statement =>
           let '(path, op, value) := statement in
           setKey path (default [] (assoc path groups) ++ [(op, value)]) groups)
        [] filters.

Definition entitySatisfiesAllFilters (entity : Js) (filters : list Stmt)
    (schema_ : option Model) : bool :=
  let groupedFilters := groupByPath filters in
  (length groupedFilters =? 0)%nat ||
  forallb (fun group =>
             let dataType := schema_ ≫= (fun s => getSchemaFromPath s (Str.split "." group.1)) in
             forallb (fun f =>
                        match dataType with
                        | Some SetType => satisfiesSetFilter entity group.1 f.1 f.2
                        | _ => satisfiesRegisterFilter entity group.1 f.1 f.2
                        end)
                     group.2)
          groupedFilters.

(** [l.every(f)] and [l.some(f)] for a test that may not answer. *)
Fixpoint everyResult {A} (f : A -> Result bool) (l : list A) : Result bool :=
  match l with
  | [] => Ok true
  | x :: rest => rbind (f x) (fun b => if b then everyResult f rest else Ok false)
  end.

Fixpoint someResult {A} (f : A -> Result bool) (l : list A) : Result bool :=
  match l with
  | [] => Ok false
  | x :: rest => rbind (f x) (fun b => if b then Ok true else someResult f rest)
  end.

Definition statementsOf (w : list WhereFilter) : list Stmt :=
  omap (fun f => match f with FilterStatement p o v => Some (p, o, v) | _ => None end) w.

Definition groupsOf (m : GroupMod) (w : list WhereFilter) : list (list WhereFilter) :=
  omap (fun f => match f, m with
                 | FilterGroup mod_or fs, mod_or => Some fs
                 | FilterGroup mod_and fs, mod_and => Some fs
                 | _, _ => None
                 end) w.

(** [doesEntityObjMatchBasicWhere], with a bound on the depth of the groups
    it descends into. *)
Fixpoint doesEntityObjMatchBasicWhere (fuel : nat) (entityObj : Js)
    (where' : option (list WhereFilter)) (schema_ : option Model) : Result bool :=
  match where' with
  | None => Ok true
  | Some w =>
      match fuel with
      | O => OutOfFuel
      | S n =>
          let basicStatements := statementsOf w in
          let orStatements := groupsOf mod_or w in
          let andStatements := groupsOf mod_and w in
          if negb (entitySatisfiesAllFilters entityObj basicStatements schema_) then Ok false
          else
            rbind (everyResult
                     (fun filters =>
                        someResult
                          (fun filter_ =>
                             doesEntityObjMatchBasicWhere n entityObj (Some [filter_]) schema_)
                          filters)
                     orStatements)
                  (fun matchesOrFilters =>
                     if negb matchesOrFilters then Ok false
                     else
                       rbind (everyResult
                                (fun filters =>
                                   doesEntityObjMatchBasicWhere n entityObj (Some filters)
                                     schema_)
                                andStatements)
                             (fun matchesAndFilters =>
                                if negb matchesAndFilters then Ok false else Ok true))
      end
  end.

End BasicWhere.

(** ** Root permutations: the chains of a query *)

(** The sub-queries of the [exists] filters of a where list, each with the
    index of its filter. *)
Definition subQueryFilters (w : list WhereFilter) : list (nat * CollectionQuery) :=
  omap (fun entry => match entry.2 with
                     | SubQueryFilter q => Some (entry.1, q)
                     | _ => None
                     end)
       (imap pair w).

(** The sub-queries of the inclusions; an inclusion that is no sub-query
    raises. *)
Fixpoint subQueryInclusions (incs : list (string * QueryInclusion))
    : Result (list CollectionQuery) :=
  match incs with
  | [] => Ok []
  | (_, RelationSubquery q _) :: rest =>
      rbind (subQueryInclusions rest) (fun acc => Ok (q :: acc))
  | _ :: _ => Throw (QueryNotPreparedError "An inclusion is not prepared")
  end.

(** [where.filter((f) => !isSubQueryFilter(f) || f.exists !== subQuery)] for
    the sub-query of the filter at [idx]; the sub-query of an inclusion is the
    object of no filter. Every filter holds a sub-query object of its own. *)
Definition withoutSubQuery (w : list WhereFilter) (idx : option nat) : list WhereFilter :=
  match idx with
  | Some i => map snd (List.filter (fun entry => negb (Nat.eqb entry.1 i)) (imap pair w))
  | None => w
  end.

(** The chains [generateQueryChains] yields, in the order it yields them,
    with a bound on the depth of the sub-queries it descends into. *)
Fixpoint generateQueryChains (fuel : nat) (query : CollectionQuery)
    (prefix : list CollectionQuery) : Result (list (list CollectionQuery)) :=
  match fuel with
  | O => OutOfFuel
  | S n =>
      rbind (subQueryInclusions (default [] (include query))) (fun inclusions =>
        let subQueries :=
          map (fun entry => (Some entry.1, entry.2)) (subQueryFilters (whereList query))
          ++ map (fun q => (None, q)) inclusions in
        rbind (mapResult
                 (fun entry =>
                    let queryWithoutSubQuery :=
                      withWhere query (Some (withoutSubQuery (whereList query) entry.1)) in
                    generateQueryChains n entry.2 (prefix ++ [queryWithoutSubQuery]))
                 subQueries)
              (fun chains => Ok ((prefix ++ [query]) :: concat chains)))
  end.

(** Every character of the string is a decimal digit. *)
Fixpoint allDigits (s : string) : bool :=
  match s with
  | EmptyString => true
  | String c rest => bool_decide (is_Some (Str.digit c)) && allDigits rest
  end.

(** ** Sample data

    A store, a schema and the helper functions of a small blog, on which the
    engine is run below. *)

Module Sample.

Definition emptyTx : TripleStoreApi :=
  mkTx (fun _ _ => []) (fun _ _ => []) (fun _ => []).

Definition noOptions : FetchFromStorageOptions := mkOptions None false None false.

Definition noCaller : Caller := mkCaller None None None.

(** An encoding that keeps the order of the sample values. *)
Definition plainEncode (j : Js) : string :=
  match j with
  | JPrim v => toString v
  | _ => ""
  end.

(** Timestamps dropped, one level deep. *)
Definition plain (j : Js) : Js :=
  match j with
  | JLeaf v _ => JPrim v
  | JObj fs =>
      JObj (map (fun kv => (kv.1, match kv.2 with JLeaf v _ => JPrim v | o => o end)) fs)
  | o => o
  end.

Definition convert (_ : Models) (_ : string) (j : Js) : Js := j.

Definition prepared (q : CollectionQuery) (_ : option Models) (_ : Caller) (_ : bool)
    : Result CollectionQuery := Ok q.

Definition keepFilters (w : list WhereFilter) (_ : list (string * Js)) : list WhereFilter := w.

Definition emptyPipeline (_ : TripleStoreApi) (_ _ : CollectionQuery)
    (_ : FetchFromStorageOptions) : M FetchResult.t :=
  ret (FetchResult.mk (JMap []) []).

Definition fetch : nat -> TripleStoreApi -> CollectionQuery -> FetchFromStorageOptions ->
                   M FetchResult.t :=
  fetch noCaller plain convert prepared keepFilters emptyPipeline.

Definition ts1 : Timestamp := (1, "alice").
Definition ts2 : Timestamp := (2, "alice").

Definition query (collection : string) : CollectionQuery :=
  mkQuery collection None None None None None None None.

(** users: name, age, and their posts (many).
    posts: title, score, their author (one).
    comments: text, their post (one); through it the comments of the post
    (many). *)
Definition postsOfUser : CollectionQuery :=
  withWhere (query "posts") (Some [FilterStatement "author_id" OpEq (VStr "$1.id")]).
Definition authorOfPost : CollectionQuery :=
  withWhere (query "users") (Some [FilterStatement "id" OpEq (VStr "$1.author_id")]).
Definition postOfComment : CollectionQuery :=
  withWhere (query "posts") (Some [FilterStatement "id" OpEq (VStr "$1.post_id")]).
Definition commentsOfPost : CollectionQuery :=
  withWhere (query "comments") (Some [FilterStatement "post_id" OpEq (VStr "$1.id")]).

Definition blog : Models :=
  mkModels
    (fun path collection =>
       if String.eqb collection "users" then
         match path with
         | ["name"] => Some (ScalarType "string")
         | ["age"] => Some (ScalarType "number")
         | ["id"] => Some (ScalarType "string")
         | ["posts"] => Some (QueryType postsOfUser many)
         | ["posts"; "title"] => Some (ScalarType "string")
         | _ => None
         end
       else if String.eqb collection "posts" then
         match path with
         | ["title"] => Some (ScalarType "string")
         | ["score"] => Some (ScalarType "number")
         | ["id"] => Some (ScalarType "string")
         | ["author"] => Some (QueryType authorOfPost one)
         | ["author"; "name"] => Some (ScalarType "string")
         | _ => None
         end
       else if String.eqb collection "comments" then
         match path with
         | ["text"] => Some (ScalarType "string")
         | ["id"] => Some (ScalarType "string")
         | ["post"] => Some (QueryType postOfComment one)
         | ["post"; "comments"] => Some (QueryType commentsOfPost many)
         | ["post"; "comments"; "text"] => Some (ScalarType "string")
         | _ => None
         end
       else None)
    (fun collection =>
       if String.eqb collection "users" then
         Some [("id", ScalarType "string"); ("name", ScalarType "string");
               ("age", ScalarType "number"); ("posts", QueryType postsOfUser many)]
       else if String.eqb collection "posts" then
         Some [("id", ScalarType "string"); ("title", ScalarType "string");
               ("score", ScalarType "number"); ("author", QueryType authorOfPost one)]
       else if String.eqb collection "comments" then
         Some [("id", ScalarType "string"); ("text", ScalarType "string");
               ("post", QueryType postOfComment one)]
       else None).

Definition blogOptions : FetchFromStorageOptions := mkOptions (Some blog) false None false.

(** An entity with one attribute beside its id. *)
Definition entityWith (id attr : string) (v : Value) : Js :=
  JObj [("id", JLeaf (VStr id) ts1); (attr, JLeaf v ts1)].

Definition item (e : Js) : QueryPipelineData.t := QueryPipelineData.mk e [] [] [].

Definition alwaysSatisfied (_ : CollectionQuery) (_ : QueryPipelineData.t)
    (_ : option WhereFilter) : Result bool := Ok true.

(** Users called Alice. *)
Definition usersNamedAlice : CollectionQuery :=
  withWhere (query "users") (Some [FilterStatement "name" OpEq (VStr "Alice")]).

(** Posts by score, behind the post [B] of score 20, that post excluded. *)
Definition postsAfterB : CollectionQuery :=
  mkQuery "posts" None (Some [("score", ASC)]) None
          (Some ((VNum 20, "posts#B"), false)) None None None.

Definition postsWithoutB : list (string * Js) :=
  [("A", entityWith "A" "score" (VNum 10));
   ("C", entityWith "C" "score" (VNum 30));
   ("D", entityWith "D" "score" (VNum 40))].

(** Users older than 5 and called Alice, in this order. *)
Definition usersOlderNamed : CollectionQuery :=
  withWhere (query "users")
    (Some [FilterStatement "age" OpGt (VNum 5); FilterStatement "name" OpEq (VStr "Alice")]).

(** A store that holds two versions of the age of one user. *)
Definition agesOfUser1 : list TripleRow.t :=
  [TripleRow.mk "users#1" [VStr "users"; VStr "age"] (VNum 20) ts1 false;
   TripleRow.mk "users#1" [VStr "users"; VStr "age"] (VNum 25) ts2 false].

Definition txTwoAges : TripleStoreApi :=
  mkTx (fun _ _ => []) (fun _ _ => agesOfUser1) (fun _ => agesOfUser1).

Definition usersOlderThan18 : CollectionQuery :=
  withWhere (query "users") (Some [FilterStatement "age" OpGt (VNum 18)]).

(** Comments whose text is the title of a post of the user above them. *)
Definition commentsQuotingPosts : CollectionQuery :=
  withWhere (query "comments")
    (Some [FilterStatement "text" OpEq (VStr "$1.posts.title")]).

Definition user1 : Js := entityWith "u1" "name" (VStr "Alice").

(** Posts by score alone. *)
Definition postsByScore : CollectionQuery :=
  mkQuery "posts" None (Some [("score", ASC)]) None None None None None.

Definition tiedPosts : list (string * Js) :=
  [("b", entityWith "b" "score" (VNum 10));
   ("a", entityWith "a" "score" (VNum 10))].

(** A comment as a frame of the stack. *)
Definition commentFrame : Js :=
  JObj [("id", JPrim (VStr "c1")); ("text", JPrim (VStr "hello"));
        ("post_id", JPrim (VStr "p1")); ("_collection", JPrim (VStr "comments"))].

Definition flatSome (w : list WhereFilter) (p : WhereFilter -> bool) : bool := existsb p w.

Definition noReconcile (_ : TripleStoreApi) (_ : option (list WhereFilter))
    (_ : CollectionQuery) (_ : FetchFromStorageOptions) (_ : JsSet.t)
    (st : Subscription.t) : Result (Subscription.t * list Event) :=
  Ok (st, [OnError TypeError]).

(** A write to the posts, seen by a subscription on the users. *)
Definition writeToPosts : list (string * WriteOps.t) :=
  [("outbox",
    WriteOps.mk [TripleRow.mk "posts#p1" [VStr "posts"; VStr "title"] (VStr "Hi") ts1 false]
                [TripleRow.mk "posts#p0" [VStr "posts"; VStr "title"] (VStr "Old") ts1 true])].

Definition oneUser : Subscription.t :=
  Subscription.mk [("u1", user1)] [("u1", [])].

(** The first write of a client, at tick 0. *)
Definition firstWrite : list TripleRow.t :=
  [TripleRow.mk "users#1" [VStr "users"; VStr "name"] (VStr "Alice") (0, "alice") false].

(** A user as a frame of the stack. *)
Definition userFrame : Js :=
  JObj [("id", JPrim (VStr "u1")); ("name", JPrim (VStr "Alice"));
        ("_collection", JPrim (VStr "users"))].

Definition noEntities (_ : list TripleRow.t) (_ : option (gmap string Z))
    : list (string * Entity.t) := [].

(** Users between two ages, the name asked for in between. *)
Definition usersAgedBetween : CollectionQuery :=
  withWhere (query "users")
    (Some [FilterStatement "age" OpGt (VNum 5); FilterStatement "name" OpEq (VStr "Alice");
           FilterStatement "age" OpLte (VNum 10)]).

(** Users by age. *)
Definition usersByAge : CollectionQuery :=
  mkQuery "users" None (Some [("age", ASC)]) None None None None None.

(** A fetch that finds nothing. *)
Definition emptyFetch (_ : TripleStoreApi) (_ : CollectionQuery)
    (_ : FetchFromStorageOptions) : M FetchResult.t :=
  ret (FetchResult.mk (JMap []) []).

(** Users that have a post. *)
Definition usersWithPosts : CollectionQuery :=
  withWhere (query "users") (Some [SubQueryFilter postsOfUser]).

(** Users with their posts asked for by name only. *)
Definition usersIncludingPosts : CollectionQuery :=
  withInclude (query "users") (Some [("posts", InclusionShorthand true)]).

(** Users with a name like a pattern, then old enough, then of one name. *)
Definition usersLikeThenOlder : CollectionQuery :=
  withWhere (query "users")
    (Some [FilterStatement "name" OpLike (VStr "A%"); BooleanFilter true;
           FilterStatement "age" OpGte (VNum 18);
           FilterStatement "name" OpEq (VStr "Alice")]).

(** Posts by score, then by title. *)
Definition postsByScoreThenTitle : CollectionQuery :=
  mkQuery "posts" None (Some [("score", ASC); ("title", ASC)]) None None None None None.

(** A post with a score and a title. *)
Definition postWith (id : string) (score : Z) (title : string) : Js :=
  JObj [("id", JLeaf (VStr id) ts1); ("score", JLeaf (VNum score) ts1);
        ("title", JLeaf (VStr title) ts1)].

(** Two posts of one score and one title, the later id first. *)
Definition postsTiedOnBoth : list (string * Js) :=
  [("p2", postWith "p2" 10 "same"); ("p1", postWith "p1" 10 "same")].






End Sample.

(** * Properties *)

(** ** The filter stage *)

Lemma applyFilterOrder_spec sat q w item ord r ev :
  applyFilterOrder sat q w item ord = (r, ev) →
  (r = Ok true ∧ ev = ord ∧ Forall (λ i, sat q item (w !! i) = Ok true) ord) ∨
  (r ≠ Ok true ∧
   ∃ pre i post, ord = pre ++ i :: post ∧ ev = pre ++ [i] ∧
                 Forall (λ j, sat q item (w !! j) = Ok true) pre ∧
                 sat q item (w !! i) = r).
Proof.
  revert r ev. induction ord as [|i ord IH]; intros r ev; simpl.
  - intros [= <- <-]. left. auto.
  - destruct (sat q item (w !! i)) as [[]| |] eqn:Hi.
    + destruct (applyFilterOrder sat q w item ord) as [r' ev'] eqn:Hrest.
      intros [= <- <-].
      destruct (IH _ _ eq_refl) as [(-> & -> & Hall)|(Hr & pre & j & post & -> & -> & Hpre & Hj)].
      * left. auto.
      * right. split; [done|]. exists (i :: pre), j, post. auto.
    + intros [= <- <-]. right. split; [done|]. exists [], i, ord. auto.
    + intros [= <- <-]. right. split; [done|]. exists [], i, ord. auto.
    + intros [= <- <-]. right. split; [done|]. exists [], i, ord. auto.
Qed.

(** C1, as the claim states it, fails: the selector marks the only clause of
    [usersNamedAlice] as fulfilled, and the filter stage still hands that
    clause to [satisfiesFilter]. *)
Lemma C1_fulfilled_clause_is_evaluated :
  ¬ (∀ i : nat,
       Fulfilled.where_
         (getCandidateEntityIds Sample.emptyTx Sample.usersNamedAlice Sample.noOptions).2
         !! i = Some true →
       i ∉ (ApplyFilters Sample.alwaysSatisfied filterPriorityOrder Sample.usersNamedAlice
              (Sample.item Sample.user1)).2).
Proof.
  intros H. apply (H 0%nat); [reflexivity|]. vm_compute. apply list_elem_of_here.
Qed.

(** C1, amended: on an entity that is there, [ApplyFilters] hands the clauses
    to [satisfiesFilter] in the priority order of the query, whatever the
    selector marked as fulfilled, up to the first clause that is not
    satisfied: either every clause of the order was evaluated and satisfied,
    or the evaluation stopped at the first clause with another outcome, which
    is the outcome of the stage. *)
Theorem ApplyFilters_evaluates_in_priority_order sat ord q item w r ev :
  isNullish (QueryPipelineData.entity item) = false →
  where_ q = Some w →
  ApplyFilters sat ord q item = (r, ev) →
  (r = Ok true ∧ ev = ord q ∧ Forall (λ i, sat q item (w !! i) = Ok true) (ord q)) ∨
  (r ≠ Ok true ∧
   ∃ pre i post, ord q = pre ++ i :: post ∧ ev = pre ++ [i] ∧
                 Forall (λ j, sat q item (w !! j) = Ok true) pre ∧
                 sat q item (w !! i) = r).
Proof.
  intros Hent Hw. unfold ApplyFilters. rewrite Hent, Hw. apply applyFilterOrder_spec.
Qed.

Lemma ApplyFilters_evaluates_in_priority_order_witness :
  (Ok true = Ok true ∧ [0%nat] = filterPriorityOrder Sample.usersNamedAlice ∧
   Forall (λ i, Sample.alwaysSatisfied Sample.usersNamedAlice (Sample.item Sample.user1)
                  ([FilterStatement "name" OpEq (VStr "Alice")] !! i) = Ok true)
          (filterPriorityOrder Sample.usersNamedAlice)) ∨
  (Ok true ≠ Ok true ∧
   ∃ pre i post, filterPriorityOrder Sample.usersNamedAlice = pre ++ i :: post ∧
                 [0%nat] = pre ++ [i] ∧
                 Forall (λ j, Sample.alwaysSatisfied Sample.usersNamedAlice
                                (Sample.item Sample.user1)
                                ([FilterStatement "name" OpEq (VStr "Alice")] !! j) = Ok true) pre ∧
                 Sample.alwaysSatisfied Sample.usersNamedAlice (Sample.item Sample.user1)
                   ([FilterStatement "name" OpEq (VStr "Alice")] !! i) = Ok true).
Proof.
  apply (ApplyFilters_evaluates_in_priority_order Sample.alwaysSatisfied filterPriorityOrder
           Sample.usersNamedAlice (Sample.item Sample.user1)
           [FilterStatement "name" OpEq (VStr "Alice")] (Ok true) [0%nat]);
    reflexivity.
Defined.

(** ** The cursor stage *)

(** C2: the stream [A(10), C(30), D(40)] sorted by score, behind the cursor
    [(20, posts#B)] with [inclusive = false]. [C] sorts strictly behind the
    cursor and is not among the results: the call that sees the cursor value
    passed answers [inclusive && ...]. *)
Theorem C2_entity_behind_absent_cursor_is_dropped :
  Str.gtb (Sample.plainEncode (JPrim (VNum 30))) (Sample.plainEncode (JPrim (VNum 20))) = true ∧
  filterAfterCursor Sample.plainEncode Sample.postsAfterB Sample.postsWithoutB
  = Ok [("D", Sample.entityWith "D" "score" (VNum 40))].
Proof. split; reflexivity. Qed.

(** ** The index selector *)

Lemma includes_EQUALITY_OPS op : includes EQUALITY_OPS op = true ↔ op = OpEq.
Proof. destruct op; vm_compute; split; (done || discriminate). Qed.

Lemma includes_true ops op : includes ops op = true ↔ op ∈ ops.
Proof. unfold includes. apply bool_decide_eq_true. Qed.

Lemma includes_false ops op : includes ops op = false ↔ op ∉ ops.
Proof. unfold includes. apply bool_decide_eq_false. Qed.

Lemma findCandidateFilterFrom_spec i l s c j k d :
  findCandidateFilterFrom i l s c = Some (j, k, d) →
  ∃ n p op v,
    j = (i + n)%nat ∧ l !! n = Some (FilterStatement p op v) ∧
    (k = equality ∧ op = OpEq ∨ k = range ∧ op ∈ RANGE_OPS) ∧
    d = getCandidateDataTypeFromPath p s c ∧
    ∀ m p' op' v', (m < n)%nat → l !! m = Some (FilterStatement p' op' v') →
                   op' ≠ OpEq ∧ op' ∉ RANGE_OPS.
Proof.
  revert i. induction l as [|f l IH]; intros i; simpl; [discriminate|].
  assert (Hskip : findCandidateFilterFrom (S i) l s c = Some (j, k, d) →
                  (∀ p op v, f = FilterStatement p op v → op ≠ OpEq ∧ op ∉ RANGE_OPS) →
                  ∃ n p op v,
                    j = (i + n)%nat ∧ (f :: l) !! n = Some (FilterStatement p op v) ∧
                    (k = equality ∧ op = OpEq ∨ k = range ∧ op ∈ RANGE_OPS) ∧
                    d = getCandidateDataTypeFromPath p s c ∧
                    ∀ m p' op' v', (m < n)%nat →
                                   (f :: l) !! m = Some (FilterStatement p' op' v') →
                                   op' ≠ OpEq ∧ op' ∉ RANGE_OPS).
  { intros H Hf. destruct (IH _ H) as (n & p & op & v & -> & Hn & Hk & Hd & Hbefore).
    exists (S n), p, op, v.
    split; [lia|]. split; [done|]. split; [done|]. split; [done|].
    intros [|m] p' op' v' Hm Hl; simpl in Hl.
    - injection Hl as ->. eauto.
    - eapply Hbefore; [|done]. lia. }
  destruct f as [p op v| | | |]; try (intros H; apply Hskip; [done|discriminate]).
  destruct (includes EQUALITY_OPS op) eqn:Heq.
  - intros [= <- <- <-]. exists 0%nat, p, op, v.
    apply includes_EQUALITY_OPS in Heq.
    split; [lia|]. split; [done|]. split; [auto|]. split; [done|].
    intros m ? ? ? Hm. lia.
  - destruct (includes RANGE_OPS op) eqn:Hrange.
    + intros [= <- <- <-]. exists 0%nat, p, op, v.
      apply includes_true in Hrange.
      split; [lia|]. split; [done|]. split; [auto|]. split; [done|].
      intros m ? ? ? Hm. lia.
    + intros H. apply Hskip; [done|]. intros ? ? ? [= <- <- <-].
      split; [|by apply includes_false].
      intros ->. discriminate.
Qed.

(** C3, as the claim states it, fails: in [usersOlderNamed] the range
    statement on [age] stands before the equality statement on the scalar
    path [name], no clause is on [id], and the selector takes the range
    statement; the candidates are the ones of its range scan. *)
Lemma C3_earlier_range_statement_is_chosen :
  getIdFilterFromQuery Sample.usersOlderNamed = None ∧
  getCandidateDataTypeFromPath "name" (Some Sample.blog) "users" = Some (ScalarType "string") ∧
  findCandidateFilter Sample.usersOlderNamed (Some Sample.blog)
  = Some (0%nat, range, Some (ScalarType "number")) ∧
  (getCandidateEntityIds Sample.txTwoAges Sample.usersOlderNamed Sample.blogOptions).1
  = map TripleRow.id
      (performRangeScan Sample.txTwoAges Sample.usersOlderNamed ("age", OpGt, VNum 5) None).
Proof. repeat split; reflexivity. Qed.

Lemma findCandidateFilter_Some_spec q s i k d :
  findCandidateFilter q s = Some (i, k, d) →
  ∃ p op v,
    whereList q !! i = Some (FilterStatement p op v) ∧
    (k = equality ∧ op = OpEq ∨ k = range ∧ op ∈ RANGE_OPS) ∧
    d = getCandidateDataTypeFromPath p s (collectionName q) ∧
    ∀ j p' op' v', (j < i)%nat → whereList q !! j = Some (FilterStatement p' op' v') →
                   op' ≠ OpEq ∧ op' ∉ RANGE_OPS.
Proof.
  unfold findCandidateFilter, whereList.
  destruct (where_ q) as [w|]; [|discriminate]. simpl.
  intros H. destruct (findCandidateFilterFrom_spec _ _ _ _ _ _ _ H)
    as (n & p & op & v & -> & Hn & Hk & Hd & Hbefore).
  exists p, op, v. simpl. eauto.
Qed.

Lemma findCandidateFilterFrom_first i l s c n p op v :
  l !! n = Some (FilterStatement p op v) →
  op = OpEq ∨ op ∈ RANGE_OPS →
  (∀ m p' op' v', (m < n)%nat → l !! m = Some (FilterStatement p' op' v') →
                  op' ≠ OpEq ∧ op' ∉ RANGE_OPS) →
  findCandidateFilterFrom i l s c
  = Some ((i + n)%nat, if includes EQUALITY_OPS op then equality else range,
          getCandidateDataTypeFromPath p s c).
Proof.
  revert i n. induction l as [|f l IH]; intros i n Hn Hop Hbefore; [done|].
  destruct n as [|n]; simpl in Hn.
  - injection Hn as ->. simpl. replace (i + 0)%nat with i by lia.
    destruct (includes EQUALITY_OPS op) eqn:Heq; [done|].
    destruct Hop as [->|Hop]; [done|].
    apply includes_true in Hop. by rewrite Hop.
  - assert (Hrest : findCandidateFilterFrom (S i) l s c
                    = Some ((i + S n)%nat,
                            if includes EQUALITY_OPS op then equality else range,
                            getCandidateDataTypeFromPath p s c)).
    { replace (i + S n)%nat with (S i + n)%nat by lia. apply IH; [done|done|].
      intros m p' op' v' Hm Hl. apply (Hbefore (S m) p' op' v'); [lia|done]. }
    destruct f as [p0 op0 v0| | | |]; simpl; try exact Hrest.
    destruct (Hbefore 0%nat p0 op0 v0) as [Hne Hnr]; [lia|done|].
    assert (Heq : includes EQUALITY_OPS op0 = false).
    { destruct (includes EQUALITY_OPS op0) eqn:H0; [|done].
      by apply includes_EQUALITY_OPS in H0. }
    apply includes_false in Hnr. by rewrite Heq, Hnr.
Qed.

(** C3, amended: the statement the selector chooses is the first statement
    of [where], in the order written, whose operator is [=] or one of
    [<], [<=], [>], [>=], whichever of the two kinds it is: the selector
    answers with an index, a kind and a type exactly when the clause at the
    index is a statement with such an operator and no statement before it
    has one, the kind being the equality scan for [=] and the range scan for
    a range operator, and the type the candidate type of its path. *)
Theorem findCandidateFilter_first_indexable_statement q s i k d :
  findCandidateFilter q s = Some (i, k, d) ↔
  ∃ p op v,
    whereList q !! i = Some (FilterStatement p op v) ∧
    (k = equality ∧ op = OpEq ∨ k = range ∧ op ∈ RANGE_OPS) ∧
    d = getCandidateDataTypeFromPath p s (collectionName q) ∧
    ∀ j p' op' v', (j < i)%nat → whereList q !! j = Some (FilterStatement p' op' v') →
                   op' ≠ OpEq ∧ op' ∉ RANGE_OPS.
Proof.
  split; [apply findCandidateFilter_Some_spec|].
  intros (p & op & v & Hi & Hk & -> & Hbefore).
  unfold findCandidateFilter. unfold whereList in Hi, Hbefore.
  destruct (where_ q) as [w|]; simpl in *; [|done].
  rewrite (findCandidateFilterFrom_first 0 w s (collectionName q) i p op v Hi);
    [|destruct Hk as [[_ ?]|[_ ?]]; auto|done].
  simpl. destruct Hk as [[-> ->]|[-> Hop]]; [done|].
  destruct (includes EQUALITY_OPS op) eqn:Heq; [|done].
  apply includes_EQUALITY_OPS in Heq as ->.
  exfalso. revert Hop. by apply (bool_decide_eq_false_1 _).
Qed.

Lemma findCandidateFilter_first_indexable_statement_witness :
  findCandidateFilter Sample.usersLikeThenOlder (Some Sample.blog)
  = Some (2%nat, range, Some (ScalarType "number")).
Proof.
  apply (proj2 (findCandidateFilter_first_indexable_statement Sample.usersLikeThenOlder
                  (Some Sample.blog) 2%nat range (Some (ScalarType "number")))).
  exists "age", OpGte, (VNum 18).
  split; [reflexivity|]. split; [right; split; [reflexivity|]|].
  - by apply (bool_decide_unpack _).
  - split; [reflexivity|].
    intros [|[|j]] p' op' v' Hj Hl; [| |lia].
    + injection Hl as <- <- <-. split; [discriminate|].
      by apply (bool_decide_eq_false_1 _).
    + discriminate.
Defined.

(** C4: a store that holds two versions of the age of [users#1], both above
    the bound of the range statement. The range scan yields the id of the
    entity once per triple, and the candidates carry it twice. *)
Theorem C4_range_scan_repeats_an_entity :
  (getCandidateEntityIds Sample.txTwoAges Sample.usersOlderThan18 Sample.noOptions).1
  = ["users#1"; "users#1"] ∧
  ¬ NoDup (getCandidateEntityIds Sample.txTwoAges Sample.usersOlderThan18 Sample.noOptions).1.
Proof.
  split; [reflexivity|].
  change (¬ NoDup ["users#1"; "users#1"]).
  intros H. apply NoDup_cons_1_1 in H. apply H. apply list_elem_of_here.
Qed.

(** ** The frame stack of the sub-query loader *)

(** C5: a sub-query of a user whose filter reads the variable
    [$1.posts.title]. The fetch of the sub-query fails on the relation [posts]
    of cardinality many; [loadSubquery] had pushed the frame of the user and
    does not reach its [pop]: the stack is one frame longer than on entry. *)
Theorem C5_failed_fetch_leaves_the_frame :
  (loadSubquery Sample.noCaller Sample.plain Sample.convert Sample.prepared (Sample.fetch 2)
     Sample.emptyTx (Sample.query "users") Sample.commentsQuotingPosts many
     Sample.blogOptions Sample.user1 initialFetchExecutionContext).1
  = Throw (TriplitError cardinalityManyMessage) ∧
  length (queriedDataStack
            (loadSubquery Sample.noCaller Sample.plain Sample.convert Sample.prepared
               (Sample.fetch 2) Sample.emptyTx (Sample.query "users")
               Sample.commentsQuotingPosts many Sample.blogOptions Sample.user1
               initialFetchExecutionContext).2)
  = S (length (queriedDataStack initialFetchExecutionContext)).
Proof. split; reflexivity. Qed.

(** ** The state vector of the delta engine *)

Lemma minTickOf_unique l c m m' : minTickOf l c m → minTickOf l c m' → m = m'.
Proof.
  intros [(t & Ht & Hts) Hmin] [(t' & Ht' & Hts') Hmin'].
  pose proof (Hmin t' Ht') as H1. pose proof (Hmin' t Ht) as H2.
  rewrite Hts' in H1. rewrite Hts in H2. simpl in *.
  specialize (H1 eq_refl). specialize (H2 eq_refl). lia.
Qed.

Lemma deltaStateVector_snoc l t :
  deltaStateVector (l ++ [t]) = stateVectorStep (deltaStateVector l) t.
Proof. unfold deltaStateVector. by rewrite foldl_app. Qed.

Lemma deltaStateVector_lookup l c :
  match deltaStateVector l !! c with
  | None => ∀ t, t ∈ l → (TripleRow.timestamp t).2 ≠ c
  | Some v => ∃ m, minTickOf l c m ∧ v = Z.max (m - 1) 0
  end.
Proof.
  induction l as [|t l IH] using rev_ind.
  - unfold deltaStateVector. simpl. rewrite lookup_empty. intros t Ht.
    by apply not_elem_of_nil in Ht.
  - rewrite deltaStateVector_snoc. unfold stateVectorStep.
    destruct (TripleRow.timestamp t) as [tick cl] eqn:Hts.
    destruct (decide (cl = c)) as [->|Hne].
    + destruct (deltaStateVector l !! c) as [known|] eqn:Hknown.
      * destruct IH as (m & [(t0 & Ht0 & Hts0) Hmin] & ->).
        assert (Hnew : minTickOf (l ++ [t]) c (Z.min m tick)).
        { split.
          - destruct (Z.le_gt_cases m tick).
            + exists t0. split; [apply elem_of_app; auto|].
              rewrite Hts0. f_equal. lia.
            + exists t. split; [apply elem_of_app; right; apply list_elem_of_here|].
              rewrite Hts. f_equal. lia.
          - intros t' [Hin|Hin]%elem_of_app Hc.
            + specialize (Hmin t' Hin Hc). lia.
            + apply list_elem_of_singleton in Hin as ->. rewrite Hts. simpl. lia. }
        destruct (tick <? Z.max (m - 1) 0 + 1) eqn:Hlt.
        -- rewrite lookup_insert_eq. exists (Z.min m tick). split; [done|].
           apply Z.ltb_lt in Hlt. lia.
        -- rewrite Hknown. exists (Z.min m tick). split; [done|].
           apply Z.ltb_ge in Hlt. lia.
      * rewrite lookup_insert_eq. exists tick. split; [|done]. split.
        -- exists t. split; [apply elem_of_app; right; apply list_elem_of_here|done].
        -- intros t' [Hin|Hin]%elem_of_app Hc.
           ++ by destruct (IH t' Hin).
           ++ apply list_elem_of_singleton in Hin as ->. rewrite Hts. simpl. lia.
    + assert (Hsame : (match deltaStateVector l !! cl with
                       | Some known =>
                           if tick <? known + 1
                           then <[cl := Z.max (tick - 1) 0]> (deltaStateVector l)
                           else deltaStateVector l
                       | None => <[cl := Z.max (tick - 1) 0]> (deltaStateVector l)
                       end) !! c = deltaStateVector l !! c).
      { destruct (deltaStateVector l !! cl) as [known|];
          [destruct (tick <? known + 1)|]; by rewrite ?lookup_insert_ne. }
      rewrite Hsame. destruct (deltaStateVector l !! c) as [v|].
      * destruct IH as (m & [(t0 & Ht0 & Hts0) Hmin] & ->). exists m. split; [|done]. split.
        -- exists t0. split; [apply elem_of_app; auto|done].
        -- intros t' [Hin|Hin]%elem_of_app Hc; [by apply Hmin|].
           apply list_elem_of_singleton in Hin as ->. rewrite Hts in Hc. simpl in Hc. done.
      * intros t' [Hin|Hin]%elem_of_app; [by apply IH|].
        apply list_elem_of_singleton in Hin as ->. rewrite Hts. simpl. done.
Qed.

(** C6, as the claim states it, fails: for the first write of a client, at
    tick 0, the least tick of the client is 0 and the state vector holds 0,
    not -1. *)
Lemma C6_tick_zero_is_not_lowered :
  minTickOf Sample.firstWrite "alice" 0 ∧
  deltaStateVector Sample.firstWrite !! "alice" = Some 0 ∧
  deltaStateVector Sample.firstWrite !! "alice" ≠ Some (0 - 1).
Proof.
  split; [|split; [reflexivity|vm_compute; discriminate]].
  split.
  - eexists. split; [apply list_elem_of_here|reflexivity].
  - intros t Ht _. apply list_elem_of_singleton in Ht as ->. simpl. lia.
Qed.

(** C6, amended: the derived state vector maps each client id of the new
    triples to the least tick among the client's new triples minus one, and
    to 0 where that would be negative; the before view of a changed entity is
    what [triplesToEntities] makes of the triples of the entity bounded by
    that vector. *)
Theorem deltaStateVector_least_tick triplesToEntities tx newTriples clientId m changedEntityId :
  minTickOf newTriples clientId m →
  deltaStateVector newTriples !! clientId = Some (Z.max (m - 1) 0) ∧
  entityBeforeStateVector triplesToEntities tx newTriples changedEntityId
  = match assoc changedEntityId
            (triplesToEntities (findByEntity tx changedEntityId)
               (Some (deltaStateVector newTriples))) with
    | Some e => Entity.data e
    | None => undefined
    end.
Proof.
  intros Hmin.
  pose proof (deltaStateVector_lookup newTriples clientId) as Hsv.
  destruct (deltaStateVector newTriples !! clientId) as [v|] eqn:Hv.
  - destruct Hsv as (m' & Hmin' & ->).
    rewrite (minTickOf_unique _ _ _ _ Hmin Hmin'). split; [done|].
    unfold entityBeforeStateVector, getEntitiesAtStateVector.
    assert (Hsize : (0 <? size (deltaStateVector newTriples))%nat = true).
    { apply Nat.ltb_lt.
      destruct (decide (size (deltaStateVector newTriples) = 0%nat)) as [H0|]; [|lia].
      apply map_size_empty_iff in H0. rewrite H0, lookup_empty in Hv. discriminate. }
    by rewrite Hsize.
  - destruct Hmin as [(t & Ht & Hts) _]. destruct (Hsv t Ht). by rewrite Hts.
Qed.

Lemma deltaStateVector_least_tick_witness :
  deltaStateVector Sample.agesOfUser1 !! "alice" = Some (Z.max (1 - 1) 0) ∧
  entityBeforeStateVector Sample.noEntities Sample.txTwoAges Sample.agesOfUser1 "users#1"
  = match assoc "users#1"
            (Sample.noEntities (findByEntity Sample.txTwoAges "users#1")
               (Some (deltaStateVector Sample.agesOfUser1))) with
    | Some e => Entity.data e
    | None => undefined
    end.
Proof.
  apply (deltaStateVector_least_tick Sample.noEntities Sample.txTwoAges Sample.agesOfUser1
           "alice" 1 "users#1").
  split.
  - exists (TripleRow.mk "users#1" [VStr "users"; VStr "age"] (VNum 20) Sample.ts1 false).
    split; [apply list_elem_of_here|reflexivity].
  - intros t Ht _. unfold Sample.agesOfUser1 in Ht.
    apply elem_of_cons in Ht as [->|Ht]; [simpl; lia|].
    apply list_elem_of_singleton in Ht as ->. simpl. lia.
Defined.

(** ** The comparator of the sort stage *)

Lemma querySorterOn_spec enc MIN entries a b c :
  querySorterOn enc MIN entries a b = Ok c →
  (c = 0 ∧ Forall (λ e, compareOn enc MIN e a b = Ok 0) entries) ∨
  (c ≠ 0 ∧ ∃ pre e post, entries = pre ++ e :: post ∧
                         Forall (λ e', compareOn enc MIN e' a b = Ok 0) pre ∧
                         compareOn enc MIN e a b = Ok c).
Proof.
  induction entries as [|e entries IH]; simpl.
  - intros [= <-]. left. auto.
  - destruct (compareOn enc MIN e a b) as [c'| |] eqn:He; simpl; try discriminate.
    destruct (c' =? 0) eqn:Hc'.
    + apply Z.eqb_eq in Hc' as ->. intros H.
      destruct (IH H) as [[-> Hall]|(Hc & pre & e' & post & -> & Hpre & He')].
      * left. auto.
      * right. split; [done|]. exists (e :: pre), e', post. auto.
    + apply Z.eqb_neq in Hc'. intros [= <-]. right. split; [done|].
      exists [], e, entries. auto.
Qed.

Lemma sortBy_all_tied {A} (cmp : A → A → Result Z) (l : list A) :
  (∀ x y, x ∈ l → y ∈ l → cmp x y = Ok 0) → sortBy cmp l = Ok l.
Proof.
  induction l as [|x l IH]; intros Htied; [done|]. simpl.
  rewrite IH by (intros; apply Htied; by apply elem_of_cons; right). simpl.
  destruct l as [|y l]; [done|]. simpl.
  rewrite Htied; [done|apply list_elem_of_here|].
  apply elem_of_cons. right. apply list_elem_of_here.
Qed.

(** C7, as the claim states it, fails: the posts [b] and [a] have the same
    score, the comparator answers 0 for them, and the sort leaves [b] before
    [a] although ["a" < "b"]. *)
Lemma C7_tied_entities_are_not_ordered_by_id :
  querySorter Sample.plainEncode null Sample.postsByScore
    (Sample.entityWith "b" "score" (VNum 10)) (Sample.entityWith "a" "score" (VNum 10)) = Ok 0 ∧
  sortEntities Sample.plainEncode null Sample.postsByScore Sample.tiedPosts
  = Ok Sample.tiedPosts ∧
  map fst Sample.tiedPosts = ["b"; "a"] ∧
  Str.ltb "a" "b" = true.
Proof. repeat split; reflexivity. Qed.

(** C7, amended: under a non-empty order clause two entities are compared by
    the first order key on which they differ, so that a tie on one key is
    broken by the keys behind it; entities tied on every key compare as
    equal, and a list of entities that are all tied is left in the order it
    came in. The entity id is not consulted. *)
Theorem querySorter_breaks_ties_by_later_keys enc MIN q entries :
  order q = Some entries →
  (∀ a b c,
     querySorter enc MIN q a b = Ok c →
     (c = 0 ∧ Forall (λ e, compareOn enc MIN e a b = Ok 0) entries) ∨
     (c ≠ 0 ∧ ∃ pre e post, entries = pre ++ e :: post ∧
                            Forall (λ e', compareOn enc MIN e' a b = Ok 0) pre ∧
                            compareOn enc MIN e a b = Ok c)) ∧
  (∀ l : list (string * Js),
     (∀ x y, x ∈ l → y ∈ l → querySorter enc MIN q x.2 y.2 = Ok 0) →
     sortEntities enc MIN q l = Ok l).
Proof.
  intros Hq. split.
  - intros a b c. unfold querySorter. rewrite Hq. apply querySorterOn_spec.
  - intros l Htied. unfold sortEntities. rewrite Hq. by apply sortBy_all_tied.
Qed.

Lemma querySorter_breaks_ties_by_later_keys_witness :
  ((1 = 0 ∧
    Forall (λ e, compareOn Sample.plainEncode null e
                   (Sample.postWith "p1" 10 "beta") (Sample.postWith "p2" 10 "alpha") = Ok 0)
           [("score", ASC); ("title", ASC)]) ∨
   (1 ≠ 0 ∧
    ∃ pre e post,
      [("score", ASC); ("title", ASC)] = pre ++ e :: post ∧
      Forall (λ e', compareOn Sample.plainEncode null e'
                      (Sample.postWith "p1" 10 "beta") (Sample.postWith "p2" 10 "alpha") = Ok 0)
             pre ∧
      compareOn Sample.plainEncode null e
        (Sample.postWith "p1" 10 "beta") (Sample.postWith "p2" 10 "alpha") = Ok 1)) ∧
  sortEntities Sample.plainEncode null Sample.postsByScoreThenTitle Sample.postsTiedOnBoth
  = Ok Sample.postsTiedOnBoth.
Proof.
  split.
  - apply (proj1 (querySorter_breaks_ties_by_later_keys Sample.plainEncode null
                    Sample.postsByScoreThenTitle [("score", ASC); ("title", ASC)] eq_refl)
             (Sample.postWith "p1" 10 "beta") (Sample.postWith "p2" 10 "alpha") 1).
    reflexivity.
  - apply (proj2 (querySorter_breaks_ties_by_later_keys Sample.plainEncode null
                    Sample.postsByScoreThenTitle [("score", ASC); ("title", ASC)] eq_refl)
             Sample.postsTiedOnBoth).
    intros x y Hx Hy. unfold Sample.postsTiedOnBoth in Hx, Hy.
    apply elem_of_cons in Hx as [->|Hx]; [|apply list_elem_of_singleton in Hx as ->];
      (apply elem_of_cons in Hy as [->|Hy]; [|apply list_elem_of_singleton in Hy as ->]);
      reflexivity.
Defined.

(** ** Relations behind variables *)







(** ** Reversal of a relation filter *)

(** C9, as the claim states it, fails: [like] has no inverse in the mapping,
    and the reversal of a statement with it returns a statement whose
    operator is undefined. *)
Lemma C9_unmapped_operator_is_not_rejected :
  REVERSE_OPERATOR_MAPPINGS OpLike = None ∧
  isValueReferentialVariable (VStr "$1.title") = true ∧
  reverseRelationFilter ("name", OpLike, VStr "$1.title")
  = Ok ("title", None, VStr "$1.name").
Proof. repeat split; reflexivity. Qed.

(** C9, amended: for every filter statement whose value is a referential
    variable, the reversal returns a statement: the path is the key of the
    variable, the value is the variable made of the scope and the old path,
    and the operator is the entry of the mapping, undefined for [like],
    [nlike] and [isDefined]. It raises for no operator. *)
Theorem reverseRelationFilter_maps_operator path op value :
  isValueReferentialVariable value = true →
  reverseRelationFilter (path, op, value)
  = Ok ((getVariableComponents (toString value)).2,
        REVERSE_OPERATOR_MAPPINGS op,
        VStr (createVariable (getVariableComponents (toString value)).1 path)) ∧
  (REVERSE_OPERATOR_MAPPINGS op = None ↔ op ∈ [OpLike; OpNlike; OpIsDefined]).
Proof.
  intros Hv. split.
  - unfold reverseRelationFilter. rewrite Hv. simpl.
    by destruct (getVariableComponents (toString value)).
  - destruct op; simpl; split; intros H;
      first [ done
            | discriminate
            | by apply (bool_decide_unpack _)
            | exfalso; revert H; by apply (bool_decide_eq_false_1 _) ].
Qed.

Lemma reverseRelationFilter_maps_operator_witness :
  reverseRelationFilter ("name", OpLike, VStr "$1.title")
  = Ok ((getVariableComponents (toString (VStr "$1.title"))).2,
        REVERSE_OPERATOR_MAPPINGS OpLike,
        VStr (createVariable (getVariableComponents (toString (VStr "$1.title"))).1 "name")) ∧
  (REVERSE_OPERATOR_MAPPINGS OpLike = None ↔ OpLike ∈ [OpLike; OpNlike; OpIsDefined]).
Proof.
  apply (reverseRelationFilter_maps_operator "name" OpLike (VStr "$1.title")).
  reflexivity.
Defined.

(** ** The write handler of a subscription *)

Lemma filter_none {A} (p : A → bool) (l : list A) :
  (∀ x, x ∈ l → p x = false) → List.filter p l = [].
Proof.
  induction l as [|x l IH]; intros H; [done|]. simpl.
  rewrite (H x) by apply list_elem_of_here.
  apply IH. intros y Hy. apply H. by apply elem_of_cons; right.
Qed.

Lemma updatedEntitiesForQuery_other_collections query storeWrites :
  (∀ t, t ∈ flat_map (λ ops, WriteOps.inserts ops.2) storeWrites
            ++ flat_map (λ ops, WriteOps.deletes ops.2) storeWrites →
        (splitIdParts (TripleRow.id t)).1 ≠ collectionName query) →
  updatedEntitiesForQuery query storeWrites = [].
Proof.
  intros H. unfold updatedEntitiesForQuery. rewrite filter_none; [done|].
  intros parts (t & -> & Ht)%list_elem_of_fmap.
  apply String.eqb_neq. by apply H.
Qed.

(** C10: for a subscription on a query without nested queries, a write batch
    none of whose inserts and deletes has an entity id of the collection of
    the query leaves the maintained results and triples as they are and
    calls neither [onResults] nor [onError]. *)
Theorem onWrite_ignores_other_collections
    plainObject convertValue someFilter fetch_ reconcile tx where' query options storeWrites st :
  hasNestedQueries someFilter where' query options = false →
  (∀ t, t ∈ flat_map (λ ops, WriteOps.inserts ops.2) storeWrites
            ++ flat_map (λ ops, WriteOps.deletes ops.2) storeWrites →
        (splitIdParts (TripleRow.id t)).1 ≠ collectionName query) →
  onWrite plainObject convertValue someFilter fetch_ reconcile tx where' query options
    storeWrites st
  = Ok (st, []).
Proof.
  intros Hsimple Hother. unfold onWrite. rewrite Hsimple.
  by rewrite updatedEntitiesForQuery_other_collections.
Qed.

Lemma onWrite_ignores_other_collections_witness :
  onWrite Sample.plain Sample.convert Sample.flatSome (Sample.fetch 2) Sample.noReconcile
    Sample.emptyTx None (Sample.query "users") Sample.noOptions Sample.writeToPosts
    Sample.oneUser
  = Ok (Sample.oneUser, []).
Proof.
  apply (onWrite_ignores_other_collections Sample.plain Sample.convert Sample.flatSome
           (Sample.fetch 2) Sample.noReconcile Sample.emptyTx None (Sample.query "users")
           Sample.noOptions Sample.writeToPosts Sample.oneUser).
  - reflexivity.
  - intros t Ht. simpl in Ht.
    apply elem_of_cons in Ht as [->|Ht]; [vm_compute; discriminate|].
    apply list_elem_of_singleton in Ht as ->. vm_compute. discriminate.
Defined.

(** ** More on the index selector *)

Lemma findCandidateFilterFrom_None i l s c :
  findCandidateFilterFrom i l s c = None ↔
  ∀ p op v, FilterStatement p op v ∈ l → op ≠ OpEq ∧ op ∉ RANGE_OPS.
Proof.
  revert i. induction l as [|f l IH]; intros i; simpl.
  - split; [|done]. intros _ p op v H. by apply not_elem_of_nil in H.
  - assert (Hskip : (∀ p op v, f = FilterStatement p op v → op ≠ OpEq ∧ op ∉ RANGE_OPS) →
                    (findCandidateFilterFrom (S i) l s c = None ↔
                     ∀ p op v, FilterStatement p op v ∈ f :: l → op ≠ OpEq ∧ op ∉ RANGE_OPS)).
    { intros Hf. rewrite IH. split.
      - intros H p op v [Heq|Hin]%elem_of_cons; eauto.
      - intros H p op v Hin. apply (H p op v). by apply elem_of_cons; right. }
    destruct f as [p op v| | | |]; try (apply Hskip; discriminate).
    destruct (includes EQUALITY_OPS op) eqn:Heq.
    + split; [discriminate|]. intros H.
      destruct (H p op v (list_elem_of_here _ _)) as [Hne _].
      by apply includes_EQUALITY_OPS in Heq.
    + destruct (includes RANGE_OPS op) eqn:Hrange.
      * split; [discriminate|]. intros H.
        destruct (H p op v (list_elem_of_here _ _)) as [_ Hnr].
        by apply includes_true in Hrange.
      * apply Hskip. intros ? ? ? [= <- <- <-]. split; [|by apply includes_false].
        intros ->. discriminate.
Qed.

(** X1: the selector finds no statement to scan by exactly when no statement
    of [where] has the operator [=] or a range operator. *)
Theorem findCandidateFilter_None_iff q s :
  findCandidateFilter q s = None ↔
  ∀ p op v, FilterStatement p op v ∈ whereList q → op ≠ OpEq ∧ op ∉ RANGE_OPS.
Proof.
  unfold findCandidateFilter, whereList. destruct (where_ q) as [w|]; simpl.
  - apply findCandidateFilterFrom_None.
  - split; [|done]. intros _ p op v H. by apply not_elem_of_nil in H.
Qed.

Lemma findRangeFilterFrom_spec i l path type j :
  findRangeFilterFrom i l path type = Some j →
  ∃ n op v, j = (i + n)%nat ∧ l !! n = Some (FilterStatement path op v) ∧ op ∈ match type with side_gt => GT_OPS | side_lt => LT_OPS end.
Proof.
  revert i. induction l as [|f l IH]; intros i; simpl; [discriminate|].
  assert (Hskip : findRangeFilterFrom (S i) l path type = Some j →
                  ∃ n op v, j = (i + n)%nat ∧ (f :: l) !! n = Some (FilterStatement path op v) ∧
                            op ∈ match type with side_gt => GT_OPS | side_lt => LT_OPS end).
  { intros H. destruct (IH _ H) as (n & op & v & -> & Hn & Hop).
    exists (S n), op, v. split; [lia|]. by split. }
  destruct f as [p op v| | | |]; try exact Hskip.
  destruct (bool_decide (p = path) && _) eqn:Hhit; [|exact Hskip].
  apply andb_true_iff in Hhit as [Hp Hop]. apply bool_decide_eq_true in Hp as ->.
  intros [= <-]. exists 0%nat, op, v. split; [lia|]. split; [done|].
  destruct type; by apply includes_true.
Qed.

Lemma findRangeFilter_Some_spec q path after_ type j :
  findRangeFilter q path after_ type = Some j →
  (after_ < j)%nat ∧
  ∃ op v, whereList q !! j = Some (FilterStatement path op v) ∧ op ∈ match type with side_gt => GT_OPS | side_lt => LT_OPS end.
Proof.
  unfold findRangeFilter, whereList. destruct (where_ q) as [w|]; [|discriminate]. simpl.
  intros H. destruct (findRangeFilterFrom_spec _ _ _ _ _ H) as (n & op & v & -> & Hn & Hop).
  split; [lia|]. exists op, v. split; [|done].
  rewrite lookup_drop in Hn. by replace (S after_ + n)%nat with (S (after_ + n)) by lia.
Qed.

(** X2: the partner [findRangeFilter] returns for a range statement stands
    behind index [after_], is a statement on the path asked for, and bounds
    the path from the side asked for. *)
Theorem findRangeFilter_partner q path after_ type j :
  findRangeFilter q path after_ type = Some j →
  (after_ < j)%nat ∧
  ∃ op v, whereList q !! j = Some (FilterStatement path op v) ∧ op ∈ match type with side_gt => GT_OPS | side_lt => LT_OPS end.
Proof. apply findRangeFilter_Some_spec. Qed.

Lemma findRangeFilter_partner_witness :
  (0 < 2)%nat ∧
  ∃ op v, whereList Sample.usersAgedBetween !! 2%nat = Some (FilterStatement "age" op v) ∧
          op ∈ match side_lt with side_gt => GT_OPS | side_lt => LT_OPS end.
Proof.
  apply (findRangeFilter_partner Sample.usersAgedBetween "age" 0%nat side_lt 2%nat).
  reflexivity.
Defined.

Lemma statementAt_Some w i st :
  statementAt w i = Some st → w !! i = Some (FilterStatement st.1.1 st.1.2 st.2).
Proof.
  unfold statementAt. destruct (w !! i) as [[p op v| | | |]|]; try discriminate.
  by intros [= <-].
Qed.

Lemma insert_true_lookup (l : list bool) i j :
  <[i := true]> l !! j = Some true → j = i ∨ l !! j = Some true.
Proof.
  destruct (decide (j = i)) as [->|Hne]; [by left|].
  rewrite list_lookup_insert_ne by done. by right.
Qed.

Lemma insert_true_keeps (l : list bool) i j :
  l !! j = Some true → <[i := true]> l !! j = Some true.
Proof.
  intros Hj. destruct (decide (j = i)) as [->|Hne].
  - apply list_lookup_insert_eq. by apply lookup_lt_Some in Hj.
  - by rewrite list_lookup_insert_ne.
Qed.

(** X3: the filter scan leaves the tracker with arrays of the same lengths,
    touches neither [order] nor [after], clears no flag, and marks nothing
    but statements with the operator [=] or a range operator; without a
    scan the tracker is returned as it came. *)
Theorem getFilterSetForQuery_marks_indexable_statements tx q s f :
  let out := getFilterSetForQuery tx q s f in
  length (Fulfilled.where_ out.2) = length (Fulfilled.where_ f) ∧
  Fulfilled.order out.2 = Fulfilled.order f ∧
  Fulfilled.after out.2 = Fulfilled.after f ∧
  (out.1 = None → out.2 = f) ∧
  (∀ i, Fulfilled.where_ f !! i = Some true → Fulfilled.where_ out.2 !! i = Some true) ∧
  (∀ i, Fulfilled.where_ out.2 !! i = Some true →
        Fulfilled.where_ f !! i = Some true ∨
        ∃ p op v, whereList q !! i = Some (FilterStatement p op v) ∧
                  (op = OpEq ∨ op ∈ RANGE_OPS)).
Proof.
  unfold getFilterSetForQuery.
  destruct (findCandidateFilter q s) as [[[i k] d]|] eqn:Hcand; [|simpl; by auto 7].
  destruct (findCandidateFilter_Some_spec _ _ _ _ _ Hcand)
    as (p & op & v & Hi & Hk & _).
  assert (Hst : statementAt (whereList q) i = Some (p, op, v))
    by (unfold statementAt; by rewrite Hi).
  rewrite Hst.
  assert (Hop : op = OpEq ∨ op ∈ RANGE_OPS) by (destruct Hk as [[_ ?]|[_ ?]]; auto).
  destruct k; simpl.
  - rewrite length_insert. repeat (split; [done|]). split.
    + intros j Hj. by apply insert_true_keeps.
    + intros j [->|Hj]%insert_true_lookup; [right; by exists p, op, v|by left].
  - destruct (findRangeFilter q p i _) as [j|] eqn:Hpair; simpl.
    + destruct (findRangeFilter_Some_spec _ _ _ _ _ Hpair) as (_ & op' & v' & Hj & Hop').
      rewrite !length_insert. repeat (split; [done|]). split.
      * intros n Hn. by do 2 apply insert_true_keeps.
      * intros n [->|[->|Hn]%insert_true_lookup]%insert_true_lookup.
        -- right. exists p, op', v'. split; [done|]. right.
           unfold RANGE_OPS. apply elem_of_app.
           destruct (includes GT_OPS op); [by right|by left].
        -- right. by exists p, op, v.
        -- by left.
    + rewrite length_insert. repeat (split; [done|]). split.
      * intros n Hn. by apply insert_true_keeps.
      * intros n [->|Hn]%insert_true_lookup; [right; by exists p, op, v|by left].
Qed.

Lemma getFilterSetForQuery_tracker tx q s f :
  length (Fulfilled.where_ (getFilterSetForQuery tx q s f).2) = length (Fulfilled.where_ f) ∧
  Fulfilled.order (getFilterSetForQuery tx q s f).2 = Fulfilled.order f.
Proof.
  unfold getFilterSetForQuery.
  destruct (findCandidateFilter q s) as [[[i k] d]|]; [|done].
  destruct (statementAt (whereList q) i) as [st|]; [|done].
  destruct k; simpl; [by rewrite length_insert|].
  destruct (findRangeFilter q st.1.1 i _); simpl; by rewrite ?length_insert.
Qed.

Lemma getOrderSetForQuery_tracker tx q s f :
  Fulfilled.where_ (getOrderSetForQuery tx q s f).2 = Fulfilled.where_ f ∧
  length (Fulfilled.order (getOrderSetForQuery tx q s f).2) = length (Fulfilled.order f).
Proof.
  unfold getOrderSetForQuery.
  destruct (order q) as [[|[attr dir] rest]|]; [done| |done].
  destruct (match s with Some _ => _ | None => _ end); [done|].
  destruct (foldl orderSetStep _ _) as [m ids]. simpl. by rewrite length_insert.
Qed.

(** X4: whatever access path is taken, the tracker handed to the pipeline
    has one flag per clause of [where] and one per entry of [order]. *)
Theorem getCandidateEntityIds_tracker_lengths tx q options :
  length (Fulfilled.where_ (getCandidateEntityIds tx q options).2) = length (whereList q) ∧
  length (Fulfilled.order (getCandidateEntityIds tx q options).2)
  = length (default [] (order q)).
Proof.
  assert (Hinit : length (Fulfilled.where_ (initialFulfilled q)) = length (whereList q) ∧
                  length (Fulfilled.order (initialFulfilled q)) = length (default [] (order q))).
  { unfold initialFulfilled, whereList. simpl.
    destruct (where_ q), (order q); simpl; rewrite ?length_replicate; done. }
  unfold getCandidateEntityIds.
  destruct (skipIndex options); [done|].
  destruct (getIdFilterFromQuery q); [done|].
  pose proof (getFilterSetForQuery_tracker tx q (schema options)
                (initialFulfilled q)) as (Hw & Ho).
  destruct (getFilterSetForQuery tx q (schema options) (initialFulfilled q)) as [[ids|] f1];
    simpl in *.
  - rewrite Hw, Ho. done.
  - pose proof (getOrderSetForQuery_tracker tx q (schema options) f1) as (Hw2 & Ho2).
    destruct (getOrderSetForQuery tx q (schema options) f1) as [[ids|] f2];
      simpl in *; rewrite Hw2, Ho2, Hw, Ho; done.
Qed.

Lemma JsSet_add_NoDup x s : NoDup s → NoDup (JsSet.add x s).
Proof.
  intros Hs. unfold JsSet.add. case_bool_decide as Hx; [done|].
  apply NoDup_app. split; [done|]. split.
  - intros y Hy ->%list_elem_of_singleton. done.
  - apply NoDup_singleton.
Qed.

Lemma elem_of_List_filter {A} (p : A → bool) (l : list A) (x : A) :
  x ∈ List.filter p l ↔ x ∈ l ∧ p x = true.
Proof. rewrite !list_elem_of_In. apply List.filter_In. Qed.

Lemma NoDup_List_filter {A} (p : A → bool) (l : list A) :
  NoDup l → NoDup (List.filter p l).
Proof.
  induction 1 as [|x l Hx Hl IH]; simpl; [constructor|].
  destruct (p x); [|done]. constructor; [|done].
  rewrite elem_of_List_filter. by intros [? _].
Qed.

Lemma JsSet_delete_NoDup x s : NoDup s → NoDup (JsSet.delete x s).
Proof. apply NoDup_List_filter. Qed.

Lemma orderSetStep_NoDup st trip : NoDup st.2 → NoDup (orderSetStep st trip).2.
Proof.
  destruct st as [m ids]. simpl. intros Hids.
  destruct (m !! _) as [ts|].
  - destruct (timestampCompare _ ts); simpl; try done.
    by apply JsSet_add_NoDup, JsSet_delete_NoDup.
  - simpl. by apply JsSet_add_NoDup.
Qed.

Lemma foldl_orderSetStep_NoDup trips st :
  NoDup st.2 → NoDup (foldl orderSetStep st trips).2.
Proof.
  revert st. induction trips as [|t trips IH]; intros st Hst; [done|].
  simpl. by apply IH, orderSetStep_NoDup.
Qed.

(** X5: the candidates of an order scan hold every entity id at most once,
    whatever triples the index returns. *)
Theorem getOrderSetForQuery_no_duplicates tx q s f ids f' :
  getOrderSetForQuery tx q s f = (Some ids, f') → NoDup ids.
Proof.
  unfold getOrderSetForQuery.
  destruct (order q) as [[|[attr dir] rest]|]; [discriminate| |discriminate].
  destruct (match s with Some _ => _ | None => _ end); [discriminate|].
  match goal with
  | |- context [foldl orderSetStep ?st ?trips] =>
      pose proof (foldl_orderSetStep_NoDup trips st (NoDup_nil_2)) as Hnd;
      destruct (foldl orderSetStep st trips) as [m ids']
  end.
  by intros [= <- _].
Qed.

Lemma getOrderSetForQuery_no_duplicates_witness :
  NoDup ["users#1"].
Proof.
  apply (getOrderSetForQuery_no_duplicates Sample.txTwoAges Sample.usersByAge None
           (initialFulfilled Sample.usersByAge) ["users#1"]
           (Fulfilled.mk [] [true] true)).
  reflexivity.
Defined.

Lemma getIdFilterFromQuery_Some q v :
  FilterStatement "id" OpEq v ∈ whereList q →
  ∃ v', FilterStatement "id" OpEq v' ∈ whereList q ∧
        getIdFilterFromQuery q = Some (appendCollectionToId (collectionName q) (toString v')).
Proof.
  intros Hin. unfold getIdFilterFromQuery.
  match goal with |- context [List.filter ?p _] => set (isIdEq := p) end.
  assert (Hall : ∀ f, f ∈ List.filter isIdEq (whereList q) →
                      ∃ v', f = FilterStatement "id" OpEq v' ∧ f ∈ whereList q).
  { intros f [Hf Hp]%elem_of_List_filter. destruct f as [p op v'| | | |]; try discriminate.
    simpl in Hp. apply andb_true_iff in Hp as [Hp1 Hp2].
    apply bool_decide_eq_true in Hp1 as ->. apply bool_decide_eq_true in Hp2 as ->.
    by exists v'. }
  assert (Hne : FilterStatement "id" OpEq v ∈ List.filter isIdEq (whereList q)).
  { apply elem_of_List_filter. split; [done|]. reflexivity. }
  destruct (List.filter isIdEq (whereList q)) as [|f fs].
  - by apply not_elem_of_nil in Hne.
  - destruct (Hall f (list_elem_of_here _ _)) as (v' & -> & Hf). by exists v'.
Qed.

(** X6: a query with a statement [id = v] in [where] gets one candidate, the
    id of the collection and the value of such a statement, without a read
    of the store; the tracker is the initial one, so no clause counts as
    fulfilled. *)
Theorem getCandidateEntityIds_id_point tx q options v :
  skipIndex options = false →
  FilterStatement "id" OpEq v ∈ whereList q →
  ∃ v', FilterStatement "id" OpEq v' ∈ whereList q ∧
        getCandidateEntityIds tx q options
        = ([appendCollectionToId (collectionName q) (toString v')], initialFulfilled q).
Proof.
  intros Hskip Hin. destruct (getIdFilterFromQuery_Some q v Hin) as (v' & Hv' & Hid).
  exists v'. split; [done|]. unfold getCandidateEntityIds. by rewrite Hskip, Hid.
Qed.

Lemma getCandidateEntityIds_id_point_witness :
  ∃ v', FilterStatement "id" OpEq v' ∈ whereList Sample.authorOfPost ∧
        getCandidateEntityIds Sample.txTwoAges Sample.authorOfPost Sample.noOptions
        = ([appendCollectionToId (collectionName Sample.authorOfPost) (toString v')],
           initialFulfilled Sample.authorOfPost).
Proof.
  apply (getCandidateEntityIds_id_point Sample.txTwoAges Sample.authorOfPost Sample.noOptions
           (VStr "$1.author_id")).
  - reflexivity.
  - apply list_elem_of_here.
Defined.

(** ** More on the reversal of a relation filter *)

(** X7: the reversal mapping is its own inverse on the operators it maps. *)
Theorem REVERSE_OPERATOR_MAPPINGS_involutive op op' :
  REVERSE_OPERATOR_MAPPINGS op = Some op' → REVERSE_OPERATOR_MAPPINGS op' = Some op.
Proof. destruct op; simpl; intros [= <-]; reflexivity. Qed.

Lemma REVERSE_OPERATOR_MAPPINGS_involutive_witness :
  REVERSE_OPERATOR_MAPPINGS OpHas = Some OpIn.
Proof. apply (REVERSE_OPERATOR_MAPPINGS_involutive OpIn OpHas). reflexivity. Defined.

(** X8: the reversal of a relation filter raises exactly when the value of
    the statement is not a referential variable, whatever the operator. *)
Theorem reverseRelationFilter_throws_iff path op value :
  (∃ e, reverseRelationFilter (path, op, value) = Throw e) ↔
  isValueReferentialVariable value = false.
Proof.
  unfold reverseRelationFilter.
  destruct (isValueReferentialVariable value); simpl.
  - destruct (getVariableComponents (toString value)). split; [|done].
    intros [e He]. discriminate.
  - split; [done|]. intros _. eauto.
Qed.

(** ** More on the cursor stage *)

(** X9: without an [after] clause the cursor stage lets every item through
    and reads no attribute of any entity. *)
Theorem filterAfterCursor_without_after enc q items :
  after q = None → filterAfterCursor enc q items = Ok items.
Proof.
  intros Hafter. unfold filterAfterCursor. generalize initialCursorState.
  induction items as [|[id e] items IH]; intros st; simpl; [done|].
  unfold FilterAfterCursor. rewrite Hafter. by rewrite IH.
Qed.

Lemma filterAfterCursor_without_after_witness :
  filterAfterCursor Sample.plainEncode Sample.postsByScore Sample.postsWithoutB
  = Ok Sample.postsWithoutB.
Proof.
  apply (filterAfterCursor_without_after Sample.plainEncode Sample.postsByScore
           Sample.postsWithoutB).
  reflexivity.
Defined.

Lemma filterAfterCursorFrom_open enc q st items :
  (cursorValueReached st && idReached st) || cursorValuePassed st = true →
  filterAfterCursorFrom enc q st items = Ok items.
Proof.
  intros Hopen. induction items as [|[id e] items IH]; simpl; [done|].
  unfold FilterAfterCursor. destruct (after q) as [[cursor incl]|].
  - rewrite Hopen. by rewrite IH.
  - by rewrite IH.
Qed.

(** What the stage reads of an entity: the encoded value of the first order
    attribute, [id] when the query has no order. *)
Lemma FilterAfterCursor_step enc q st id e cv cid incl attr dir ev :
  after q = Some ((cv, cid), incl) →
  (cursorValueReached st && idReached st) || cursorValuePassed st = false →
  match order q with Some (o :: _) => o | _ => ("id", ASC) end = (attr, dir) →
  rbind (prop e attr) first = Ok ev →
  FilterAfterCursor enc q st id e
  = let st' :=
      if String.eqb (enc ev) (enc (JPrim cv)) then
        mkCursorState true (cursorValuePassed st)
          (if String.eqb (appendCollectionToId (collectionName q) id) cid
           then true else idReached st)
      else if match dir with
              | ASC => Str.gtb (enc ev) (enc (JPrim cv))
              | DESC => Str.ltb (enc ev) (enc (JPrim cv))
              end
           then mkCursorState (cursorValueReached st) true (idReached st)
           else st in
    (Ok (incl && ((cursorValueReached st' && idReached st') || cursorValuePassed st')), st').
Proof.
  intros Hafter Hclosed Horder Hev. unfold FilterAfterCursor.
  rewrite Hafter, Hclosed, Horder, Hev. reflexivity.
Qed.

(** X10: on a stream that holds the cursor entity, after entities that are
    before the cursor or share its value under another id, the stage drops
    everything up to the cursor entity, keeps the cursor entity exactly when
    the cursor is inclusive, and lets through whatever comes behind it. *)
Theorem filterAfterCursor_at_cursor_entity enc q cv cid incl attr dir pre id e post :
  after q = Some ((cv, cid), incl) →
  match order q with Some (o :: _) => o | _ => ("id", ASC) end = (attr, dir) →
  Forall (λ item : string * Js,
            ∃ ev, rbind (prop item.2 attr) first = Ok ev ∧
                  String.eqb (appendCollectionToId (collectionName q) item.1) cid = false ∧
                  (String.eqb (enc ev) (enc (JPrim cv)) = true ∨
                   match dir with
                   | ASC => Str.gtb (enc ev) (enc (JPrim cv))
                   | DESC => Str.ltb (enc ev) (enc (JPrim cv))
                   end = false)) pre →
  (∃ ev, rbind (prop e attr) first = Ok ev ∧
         String.eqb (enc ev) (enc (JPrim cv)) = true) →
  appendCollectionToId (collectionName q) id = cid →
  filterAfterCursor enc q (pre ++ (id, e) :: post)
  = Ok ((if incl then [(id, e)] else []) ++ post).
Proof.
  intros Hafter Horder Hpre (ev & Hev & Hsame) Hid. unfold filterAfterCursor.
  assert (Hgen : ∀ st, cursorValuePassed st = false → idReached st = false →
                       filterAfterCursorFrom enc q st (pre ++ (id, e) :: post)
                       = Ok ((if incl then [(id, e)] else []) ++ post));
    [|by apply Hgen].
  induction Hpre as [|[id0 e0] pre (ev0 & Hev0 & Hid0 & Hcmp) _ IH]; intros st Hpassed Hidr.
  - simpl.
    rewrite (FilterAfterCursor_step enc q st id e cv cid incl attr dir ev); try done;
      [|by rewrite Hpassed, Hidr, andb_false_r].
    cbv zeta. rewrite Hsame, Hid, String.eqb_refl. simpl.
    rewrite filterAfterCursorFrom_open by done. simpl.
    rewrite andb_true_r. by destruct incl.
  - simpl in *.
    rewrite (FilterAfterCursor_step enc q st id0 e0 cv cid incl attr dir ev0); try done;
      [|by rewrite Hpassed, Hidr, andb_false_r].
    cbv zeta. rewrite Hid0.
    destruct (String.eqb (enc ev0) (enc (JPrim cv))) eqn:Heq.
    + rewrite IH by done. simpl. rewrite Hidr, Hpassed. simpl.
      by rewrite andb_false_r.
    + destruct Hcmp as [?|Hcmp]; [done|]. rewrite Hcmp.
      rewrite IH by done. simpl. rewrite Hidr, Hpassed, !andb_false_r. done.
Qed.

Lemma filterAfterCursor_at_cursor_entity_witness :
  filterAfterCursor Sample.plainEncode Sample.postsAfterB
    ([("A", Sample.entityWith "A" "score" (VNum 10))]
       ++ ("B", Sample.entityWith "B" "score" (VNum 20))
       :: [("C", Sample.entityWith "C" "score" (VNum 30))])
  = Ok ((if false then [("B", Sample.entityWith "B" "score" (VNum 20))] else [])
          ++ [("C", Sample.entityWith "C" "score" (VNum 30))]).
Proof.
  apply (filterAfterCursor_at_cursor_entity Sample.plainEncode Sample.postsAfterB
           (VNum 20) "posts#B" false "score" ASC).
  - reflexivity.
  - reflexivity.
  - constructor; [|constructor]. exists (JPrim (VNum 10)). simpl. auto.
  - exists (JPrim (VNum 20)). split; reflexivity.
  - reflexivity.
Defined.

Lemma filterAfterCursorFrom_sublist enc q st items kept :
  filterAfterCursorFrom enc q st items = Ok kept → kept `sublist_of` items.
Proof.
  revert st kept. induction items as [|[id e] items IH]; intros st kept; simpl.
  - by intros [= <-].
  - destruct (FilterAfterCursor enc q st id e) as [[keep| |] st']; try discriminate.
    destruct (filterAfterCursorFrom enc q st' items) as [kept'| |] eqn:Hrest;
      try discriminate.
    simpl. intros [= <-]. specialize (IH _ _ Hrest).
    destruct keep; [by apply sublist_skip|by apply sublist_cons].
Qed.

(** X11: what the cursor stage returns is the stream it was given with some
    items left out: it adds, repeats and reorders nothing. *)
Theorem filterAfterCursor_sublist enc q items kept :
  filterAfterCursor enc q items = Ok kept → kept `sublist_of` items.
Proof. apply filterAfterCursorFrom_sublist. Qed.

Lemma filterAfterCursor_sublist_witness :
  [("D", Sample.entityWith "D" "score" (VNum 40))] `sublist_of` Sample.postsWithoutB.
Proof.
  apply (filterAfterCursor_sublist Sample.plainEncode Sample.postsAfterB
           Sample.postsWithoutB).
  reflexivity.
Defined.

(** ** More on the sort stage *)

Lemma compareOn_antisym enc MIN entry a b c :
  compareOn enc MIN entry a b = Ok c → compareOn enc MIN entry b a = Ok (- c).
Proof.
  destruct entry as [p dir]. unfold compareOn.
  destruct (getPropertyFromPath a (Str.split "." p)) as [pa| |]; try discriminate.
  destruct (getPropertyFromPath b (Str.split "." p)) as [pb| |]; try discriminate.
  simpl. unfold Str.ltb, Str.gtb.
  rewrite (String.compare_antisym (enc (orMIN MIN (firstOpt pb)))
             (enc (orMIN MIN (firstOpt pa)))).
  destruct (String.compare (enc (orMIN MIN (firstOpt pa))) (enc (orMIN MIN (firstOpt pb))));
    destruct dir; simpl; intros [= <-]; reflexivity.
Qed.

Lemma querySorterOn_antisym enc MIN entries a b c :
  querySorterOn enc MIN entries a b = Ok c → querySorterOn enc MIN entries b a = Ok (- c).
Proof.
  revert c. induction entries as [|e entries IH]; intros c; simpl.
  - by intros [= <-].
  - destruct (compareOn enc MIN e a b) as [c'| |] eqn:He; try discriminate.
    rewrite (compareOn_antisym _ _ _ _ _ _ He). simpl.
    destruct (c' =? 0) eqn:Hc'.
    + apply Z.eqb_eq in Hc' as ->. simpl. apply IH.
    + intros [= <-]. apply Z.eqb_neq in Hc'.
      destruct (- c' =? 0) eqn:Hn; [apply Z.eqb_eq in Hn; lia|done].
Qed.

(** X12: the comparator of a query is antisymmetric: when it answers [c]
    for two entities, it answers [-c] for them in the other order. *)
Theorem querySorter_antisymmetric enc MIN q a b c :
  querySorter enc MIN q a b = Ok c → querySorter enc MIN q b a = Ok (- c).
Proof.
  unfold querySorter. destruct (order q); [apply querySorterOn_antisym|discriminate].
Qed.

Lemma querySorter_antisymmetric_witness :
  querySorter Sample.plainEncode null Sample.postsByScore
    (Sample.entityWith "C" "score" (VNum 30)) (Sample.entityWith "A" "score" (VNum 10))
  = Ok (- -1).
Proof.
  apply (querySorter_antisymmetric Sample.plainEncode null Sample.postsByScore
           (Sample.entityWith "A" "score" (VNum 10)) (Sample.entityWith "C" "score" (VNum 30))).
  reflexivity.
Defined.

Lemma insertBy_Permutation {A} (cmp : A → A → Result Z) x l l' :
  insertBy cmp x l = Ok l' → l' ≡ₚ x :: l.
Proof.
  revert l'. induction l as [|y l IH]; intros l'; simpl.
  - by intros [= <-].
  - destruct (cmp x y) as [c| |]; try discriminate. simpl.
    destruct (c <=? 0); [by intros [= <-]|].
    destruct (insertBy cmp x l) as [l''| |]; try discriminate. simpl.
    intros [= <-]. rewrite (IH _ eq_refl). apply Permutation_swap.
Qed.

Lemma sortBy_Permutation {A} (cmp : A → A → Result Z) l l' :
  sortBy cmp l = Ok l' → l' ≡ₚ l.
Proof.
  revert l'. induction l as [|x l IH]; intros l'; simpl.
  - by intros [= <-].
  - destruct (sortBy cmp l) as [sorted| |]; try discriminate. simpl.
    intros H%insertBy_Permutation. by rewrite H, (IH _ eq_refl).
Qed.

(** X13: when the sort of the entities returns, what it returns is a
    permutation of what it was given: no entity is lost or repeated. *)
Theorem sortEntities_permutation enc MIN q entities sorted :
  sortEntities enc MIN q entities = Ok sorted → sorted ≡ₚ entities.
Proof.
  unfold sortEntities. destruct (order q); [apply sortBy_Permutation|by intros [= <-]].
Qed.

Lemma sortEntities_permutation_witness :
  [("A", Sample.entityWith "A" "score" (VNum 10));
   ("C", Sample.entityWith "C" "score" (VNum 30))]
  ≡ₚ [("C", Sample.entityWith "C" "score" (VNum 30));
      ("A", Sample.entityWith "A" "score" (VNum 10))].
Proof.
  apply (sortEntities_permutation Sample.plainEncode null Sample.postsByScore).
  reflexivity.
Defined.

Lemma adjacent_cons_cons {A} (R : A → A → Prop) x y l :
  R x y → adjacent R (y :: l) → adjacent R (x :: y :: l).
Proof.
  intros Hxy Hl [|i] a b Ha Hb; simpl in *.
  - by injection Ha as <-; injection Hb as <-.
  - by apply (Hl i).
Qed.

Lemma adjacent_tail {A} (R : A → A → Prop) x l : adjacent R (x :: l) → adjacent R l.
Proof. intros H i a b Ha Hb. by apply (H (S i)). Qed.

Lemma adjacent_head {A} (R : A → A → Prop) x y l : adjacent R (x :: y :: l) → R x y.
Proof. intros H. by apply (H 0%nat). Qed.

Lemma adjacent_short {A} (R : A → A → Prop) x : adjacent R [x].
Proof. intros [|i] a b Ha Hb; simpl in *; discriminate. Qed.

Lemma insertBy_adjacent {A} (cmp : A → A → Result Z) x l l' :
  (∀ a b c, cmp a b = Ok c → cmp b a = Ok (- c)) →
  adjacent (λ a b, ∃ c, cmp a b = Ok c ∧ c <= 0) l →
  insertBy cmp x l = Ok l' →
  adjacent (λ a b, ∃ c, cmp a b = Ok c ∧ c <= 0) l' ∧
  (∀ h, head l' = Some h → h = x ∨ head l = Some h).
Proof.
  intros Hanti. revert l'. induction l as [|y l IH]; intros l' Hl; simpl.
  - intros [= <-]. split; [apply adjacent_short|]. intros h [= <-]. by left.
  - destruct (cmp x y) as [c| |] eqn:Hxy; try discriminate. simpl.
    destruct (c <=? 0) eqn:Hc.
    + intros [= <-]. apply Z.leb_le in Hc. split.
      * apply adjacent_cons_cons; [by exists c|done].
      * intros h [= <-]. by left.
    + apply Z.leb_gt in Hc.
      destruct (insertBy cmp x l) as [l''| |] eqn:Hins; try discriminate. simpl.
      intros [= <-].
      destruct (IH _ (adjacent_tail _ _ _ Hl) eq_refl) as [Hadj Hhead].
      split; [|intros h [= <-]; by right].
      destruct l'' as [|z l'']; [apply adjacent_short|].
      apply adjacent_cons_cons; [|done].
      destruct (Hhead z eq_refl) as [->|Hz].
      * exists (- c). split; [by apply Hanti|lia].
      * destruct l as [|z' l]; [discriminate|]. injection Hz as ->.
        by apply adjacent_head in Hl.
Qed.

Lemma sortBy_adjacent {A} (cmp : A → A → Result Z) l l' :
  (∀ a b c, cmp a b = Ok c → cmp b a = Ok (- c)) →
  sortBy cmp l = Ok l' →
  adjacent (λ a b, ∃ c, cmp a b = Ok c ∧ c <= 0) l'.
Proof.
  intros Hanti. revert l'. induction l as [|x l IH]; intros l'; simpl.
  - intros [= <-]. intros i a b Ha. discriminate.
  - destruct (sortBy cmp l) as [sorted| |]; try discriminate. simpl.
    intros H. by destruct (insertBy_adjacent cmp x sorted l' Hanti (IH _ eq_refl) H).
Qed.

(** X14: when the sort of the entities of a query with an order clause
    returns, every entity of the result is followed by one the comparator
    does not put before it. *)
Theorem sortEntities_sorted enc MIN q entries entities sorted :
  order q = Some entries →
  sortEntities enc MIN q entities = Ok sorted →
  adjacent (λ x y : string * Js, ∃ c, querySorter enc MIN q x.2 y.2 = Ok c ∧ c <= 0) sorted.
Proof.
  intros Hq. unfold sortEntities. rewrite Hq.
  apply (sortBy_adjacent (λ a b : string * Js, querySorter enc MIN q a.2 b.2)).
  intros a b c. unfold querySorter. rewrite Hq. apply querySorterOn_antisym.
Qed.

Lemma sortEntities_sorted_witness :
  adjacent (λ x y : string * Js,
              ∃ c, querySorter Sample.plainEncode null Sample.postsByScore x.2 y.2 = Ok c ∧
                   c <= 0)
           [("A", Sample.entityWith "A" "score" (VNum 10));
            ("C", Sample.entityWith "C" "score" (VNum 30))].
Proof.
  apply (sortEntities_sorted Sample.plainEncode null Sample.postsByScore [("score", ASC)]
           [("C", Sample.entityWith "C" "score" (VNum 30));
            ("A", Sample.entityWith "A" "score" (VNum 10))]);
    reflexivity.
Defined.

(** ** More on the sub-query loader *)

Lemma assoc_setKey_eq {A} key (v : A) fs : assoc key (setKey key v fs) = Some v.
Proof.
  induction fs as [|[k a] fs IH]; simpl.
  - by rewrite String.eqb_refl.
  - destruct (String.eqb k key) eqn:Hk; simpl; by rewrite Hk.
Qed.

(** X15: the variables [extractSubqueryVarsFromEntity] makes of an entity
    name the collection of the entity under [_collection], with or without a
    schema. *)
Theorem extractSubqueryVarsFromEntity_collection plainObject convertValue entity s
    collection frame :
  extractSubqueryVarsFromEntity plainObject convertValue entity s collection = Ok frame →
  prop frame "_collection" = Ok (JPrim (VStr collection)).
Proof.
  unfold extractSubqueryVarsFromEntity.
  destruct (match s with Some _ => _ | None => _ end) as [vars_| |]; try discriminate.
  simpl. intros [= <-]. unfold prop. simpl. by rewrite assoc_setKey_eq.
Qed.

Lemma extractSubqueryVarsFromEntity_collection_witness :
  prop (JObj [("id", JPrim (VStr "u1")); ("name", JPrim (VStr "Alice"));
              ("age", JPrim VUndefined); ("_collection", JPrim (VStr "users"))])
       "_collection"
  = Ok (JPrim (VStr "users")).
Proof.
  apply (extractSubqueryVarsFromEntity_collection Sample.plain Sample.convert Sample.user1
           (Some Sample.blog) "users").
  reflexivity.
Defined.

(** X16: when the fetch of the sub-query leaves the stack as it finds it,
    [loadSubquery] returns with the stack of its entry if it succeeds, and
    with the frame of the entity still on top if the preparation of the
    sub-query or its fetch fails. *)
Theorem loadSubquery_stack caller plainObject convertValue prepare inner tx parent sub
    cardinality options entity ctx frame :
  (∀ q c, queriedDataStack (inner tx q options c).2 = queriedDataStack c) →
  extractSubqueryVarsFromEntity plainObject convertValue entity (schema options)
    (collectionName parent) = Ok frame →
  queriedDataStack
    (loadSubquery caller plainObject convertValue prepare inner tx parent sub cardinality
       options entity ctx).2
  = match (loadSubquery caller plainObject convertValue prepare inner tx parent sub
             cardinality options entity ctx).1 with
    | Ok _ => queriedDataStack ctx
    | _ => queriedDataStack ctx ++ [frame]
    end.
Proof.
  intros Hinner Hframe. unfold loadSubquery, bind, lift, pushFrame, popFrame, ret.
  rewrite Hframe.
  destruct (prepare _ (schema options) caller (skipRules options)) as [q'| |]; try done.
  destruct cardinality.
  - unfold fetchOne, bind, ret.
    pose proof (Hinner (withLimit q' (Some 1%nat))
                  (mkContext (queriedDataStack ctx ++ [frame]))) as Hstack.
    destruct (inner tx (withLimit q' (Some 1%nat)) options _) as [[r| |] ctx']; simpl in *;
      rewrite Hstack; try done.
    by rewrite removelast_last.
  - pose proof (Hinner q' (mkContext (queriedDataStack ctx ++ [frame]))) as Hstack.
    destruct (inner tx q' options _) as [[r| |] ctx']; simpl in *; rewrite Hstack; try done.
    by rewrite removelast_last.
Qed.

Lemma loadSubquery_stack_witness :
  queriedDataStack
    (loadSubquery Sample.noCaller Sample.plain Sample.convert Sample.prepared
       Sample.emptyFetch Sample.emptyTx (Sample.query "users")
       Sample.postsOfUser many Sample.noOptions Sample.user1
       (mkContext [Sample.commentFrame])).2
  = match (loadSubquery Sample.noCaller Sample.plain Sample.convert Sample.prepared
             Sample.emptyFetch Sample.emptyTx (Sample.query "users")
             Sample.postsOfUser many Sample.noOptions Sample.user1
             (mkContext [Sample.commentFrame])).1 with
    | Ok _ => queriedDataStack (mkContext [Sample.commentFrame])
    | _ => queriedDataStack (mkContext [Sample.commentFrame])
             ++ [JObj [("id", JPrim (VStr "u1")); ("name", JPrim (VStr "Alice"));
                       ("_collection", JPrim (VStr "users"))]]
    end.
Proof.
  apply (loadSubquery_stack Sample.noCaller Sample.plain Sample.convert Sample.prepared
           Sample.emptyFetch Sample.emptyTx (Sample.query "users")
           Sample.postsOfUser many Sample.noOptions Sample.user1
           (mkContext [Sample.commentFrame])).
  - intros q c. reflexivity.
  - reflexivity.
Defined.

Lemma loadRelationships_stack_length
    caller plainObject convertValue prepare inner variable tx options ctx :
  length (queriedDataStack
            (loadRelationshipsIntoContextFromVariable caller plainObject convertValue prepare
               inner variable tx options ctx).2)
  = length (queriedDataStack ctx).
Proof.
  unfold loadRelationshipsIntoContextFromVariable.
  destruct (schema options) as [s|]; [|done].
  destruct (getVariableComponents variable) as [scope key].
  destruct (Str.parseInt (default "" scope)) as [n|]; [|done].
  unfold bind, getStack, lift. simpl.
  destruct (prop _ "_collection") as [collection| |]; try done.
  destruct (getRelationsFromIdentifier key s (keyOf collection)) as [|root rest]; [done|].
  destruct (last (root :: rest)) as [deepest|]; [|done].
  destruct root as [rootPath [rootQuery rootCardinality]]. simpl.
  destruct (bool_decide (rootCardinality = one)); simpl; [|done].
  unfold withFreshContext. simpl.
  destruct (loadSubquery _ _ _ _ _ _ _ _ _ _ _ _).1; try done.
  simpl. by rewrite length_alter.
Qed.



Lemma forEachM_stack_length {A} (f : A → M unit) l ctx :
  (∀ x c, length (queriedDataStack (f x c).2) = length (queriedDataStack c)) →
  length (queriedDataStack (forEachM f l ctx).2) = length (queriedDataStack ctx).
Proof.
  intros Hf. revert ctx. induction l as [|x l IH]; intros ctx; simpl; [done|].
  unfold bind. pose proof (Hf x ctx) as Hx.
  destruct (f x ctx) as [[[]| |] ctx']; simpl in *; try done.
  by rewrite IH.
Qed.

Lemma replaceVariablesInQuery_stack_length
    caller plainObject convertValue prepare replaceVars inner tx query options ctx :
  length (queriedDataStack
            (replaceVariablesInQuery caller plainObject convertValue prepare replaceVars
               inner tx query options ctx).2)
  = length (queriedDataStack ctx).
Proof.
  unfold replaceVariablesInQuery, bind.
  match goal with |- context [forEachM ?f ?l ctx] =>
    pose proof (forEachM_stack_length f l ctx) as Hloop; destruct (forEachM f l ctx) as [[[]| |] ctx']
  end; simpl in *; apply Hloop;
    intros [p op val| | | |] c; try done;
    (destruct (isValueVariable val); [apply loadRelationships_stack_length|done]).
Qed.

(** X18: a fetch whose pipeline leaves the depth of the stack as it finds it
    leaves the depth of the stack as it finds it, whether it returns, raises
    or runs out of depth. *)
Theorem fetch_keeps_depth
    caller plainObject convertValue prepare replaceVars pipeline fuel tx query options ctx :
  (∀ q q' c, length (queriedDataStack (pipeline tx q q' options c).2)
             = length (queriedDataStack c)) →
  length (queriedDataStack
            (fetch caller plainObject convertValue prepare replaceVars pipeline fuel tx
               query options ctx).2)
  = length (queriedDataStack ctx).
Proof.
  intros Hpipeline. destruct fuel as [|n]; simpl; [done|]. unfold bind.
  pose proof (replaceVariablesInQuery_stack_length caller plainObject convertValue prepare
                replaceVars
                (fetch caller plainObject convertValue prepare replaceVars pipeline n)
                tx query options ctx) as Hvars.
  destruct (replaceVariablesInQuery _ _ _ _ _ _ tx query options ctx) as [[q'| |] ctx'];
    simpl in *; try done.
  by rewrite Hpipeline.
Qed.

Lemma fetch_keeps_depth_witness :
  length (queriedDataStack
            (fetch Sample.noCaller Sample.plain Sample.convert Sample.prepared
               Sample.keepFilters Sample.emptyPipeline 2 Sample.emptyTx
               Sample.commentsQuotingPosts Sample.blogOptions
               (mkContext [Sample.userFrame])).2)
  = length (queriedDataStack (mkContext [Sample.userFrame])).
Proof.
  apply (fetch_keeps_depth Sample.noCaller Sample.plain Sample.convert Sample.prepared
           Sample.keepFilters Sample.emptyPipeline 2 Sample.emptyTx
           Sample.commentsQuotingPosts Sample.blogOptions (mkContext [Sample.userFrame])).
  intros q q' c. reflexivity.
Defined.

(** ** More on the delta engine *)

(** X19: the state vector derived from the new triples has an entry for
    exactly the clients that stamped one of them, and no entry is negative. *)
Theorem deltaStateVector_domain newTriples clientId :
  (is_Some (deltaStateVector newTriples !! clientId) ↔ clientId ∈ clientIds newTriples) ∧
  (∀ v, deltaStateVector newTriples !! clientId = Some v → 0 <= v).
Proof.
  pose proof (deltaStateVector_lookup newTriples clientId) as H.
  destruct (deltaStateVector newTriples !! clientId) as [v|].
  - destruct H as (m & [(t & Ht & Hts) _] & ->). split.
    + split; [|by eauto]. intros _. unfold clientIds.
      apply list_elem_of_fmap. exists t. by rewrite Hts.
    + intros v [= <-]. lia.
  - split; [|done]. split; [by intros [? ?]|].
    unfold clientIds. intros (t & -> & Ht)%list_elem_of_fmap. by destruct (H t Ht).
Qed.

Lemma assoc_setKey_ne {A} key key' (v : A) fs :
  key ≠ key' → assoc key' (setKey key v fs) = assoc key' fs.
Proof.
  intros Hne. induction fs as [|[k a] fs IH]; simpl.
  - by apply String.eqb_neq in Hne as ->.
  - destruct (String.eqb k key) eqn:Hk; simpl; [|by rewrite IH].
    apply String.eqb_eq in Hk as ->. by apply String.eqb_neq in Hne as ->.
Qed.

Lemma assoc_None_keys {A} key (fs : list (string * A)) :
  assoc key fs = None ↔ key ∉ map fst fs.
Proof.
  induction fs as [|[k a] fs IH]; simpl.
  - split; [|done]. intros _. apply not_elem_of_nil.
  - rewrite not_elem_of_cons. destruct (String.eqb k key) eqn:Hk.
    + apply String.eqb_eq in Hk as ->. split; [done|]. by intros [? _].
    + apply String.eqb_neq in Hk. rewrite IH. split; [by split|by intros [_ ?]].
Qed.

Lemma setKey_keys {A} key (v : A) fs :
  map fst (setKey key v fs)
  = match assoc key fs with Some _ => map fst fs | None => map fst fs ++ [key] end.
Proof.
  induction fs as [|[k a] fs IH]; simpl; [done|].
  destruct (String.eqb k key) eqn:Hk; simpl; [done|].
  rewrite IH. by destruct (assoc key fs).
Qed.

Lemma changedEntityTriples_snoc l t :
  changedEntityTriples (l ++ [t])
  = setKey (TripleRow.id t)
      (default [] (assoc (TripleRow.id t) (changedEntityTriples l)) ++ [t])
      (changedEntityTriples l).
Proof. unfold changedEntityTriples. by rewrite foldl_app. Qed.

(** X20: the new triples are grouped by entity: every entity id of a new
    triple is a key, once, and its group holds the new triples of the entity,
    all of them and in the order they came in; no other id is a key. *)
Theorem changedEntityTriples_groups newTriples :
  NoDup (map fst (changedEntityTriples newTriples)) ∧
  ∀ id, assoc id (changedEntityTriples newTriples)
        = match List.filter (λ t, String.eqb (TripleRow.id t) id) newTriples with
          | [] => None
          | group => Some group
          end.
Proof.
  induction newTriples as [|t l [IHnd IH]] using rev_ind.
  - split; [constructor|done].
  - rewrite changedEntityTriples_snoc. split.
    + rewrite setKey_keys. destruct (assoc _ _) eqn:Hassoc; [done|].
      apply assoc_None_keys in Hassoc. apply NoDup_app. split; [done|]. split.
      * intros x Hx ->%list_elem_of_singleton. done.
      * apply NoDup_singleton.
    + intros id. rewrite List.filter_app. simpl.
      destruct (String.eqb (TripleRow.id t) id) eqn:Hid.
      * apply String.eqb_eq in Hid as <-. rewrite assoc_setKey_eq, IH.
        by destruct (List.filter _ l).
      * apply String.eqb_neq in Hid. rewrite assoc_setKey_ne by done.
        rewrite IH, app_nil_r. done.
Qed.

(** ** More on the write handler *)

Lemma foldl_add_spec l s :
  NoDup s →
  NoDup (foldl (λ acc x, JsSet.add x acc) s l) ∧
  ∀ x, x ∈ foldl (λ acc x, JsSet.add x acc) s l ↔ x ∈ s ∨ x ∈ l.
Proof.
  revert s. induction l as [|y l IH]; intros s Hs; simpl.
  - split; [done|]. intros x. split; [by left|]. intros [?|H]; [done|].
    by apply not_elem_of_nil in H.
  - destruct (IH (JsSet.add y s) (JsSet_add_NoDup _ _ Hs)) as [Hnd Hin].
    split; [done|]. intros x. rewrite Hin, elem_of_cons. unfold JsSet.add.
    case_bool_decide as Hy.
    + split; [intros [?|?]; auto|]. intros [?|[->|?]]; auto.
    + rewrite elem_of_app, list_elem_of_singleton. tauto.
Qed.

(** X21: the set of updated entities of a write batch holds every external
    id once, and holds exactly the external ids of the inserted and deleted
    triples whose id is in the collection of the query. *)
Theorem updatedEntitiesForQuery_spec query storeWrites :
  NoDup (updatedEntitiesForQuery query storeWrites) ∧
  ∀ x, x ∈ updatedEntitiesForQuery query storeWrites ↔
       ∃ t, t ∈ flat_map (λ ops, WriteOps.inserts ops.2) storeWrites
                ++ flat_map (λ ops, WriteOps.deletes ops.2) storeWrites ∧
            splitIdParts (TripleRow.id t) = (collectionName query, x).
Proof.
  unfold updatedEntitiesForQuery, setOfList.
  match goal with |- context [foldl _ JsSet.empty ?l] =>
    destruct (foldl_add_spec l JsSet.empty (NoDup_nil_2)) as [Hnd Hin]
  end.
  split; [done|]. intros x. rewrite Hin. split.
  - intros [H|H]; [by apply not_elem_of_nil in H|].
    apply list_elem_of_fmap in H as ([c x'] & -> & H).
    apply elem_of_List_filter in H as [H Hc].
    apply list_elem_of_fmap in H as (t & Ht & Hin').
    simpl in Hc. apply String.eqb_eq in Hc as <-. by exists t.
  - intros (t & Ht & Hparts). right. apply list_elem_of_fmap.
    exists (collectionName query, x). split; [done|].
    apply elem_of_List_filter. split.
    + apply list_elem_of_fmap. by exists t.
    + simpl. apply String.eqb_refl.
Qed.

(** ** Relations of an identifier *)

Lemma firstRelationPath_head s collection paths :
  firstRelationPath s collection paths
  = head (map fst
            (omap (λ p, match getAttributeFromSchema s p collection with
                        | Some (QueryType q c) => Some (Str.join "." p, (q, c))
                        | _ => None
                        end) paths)).
Proof.
  induction paths as [|p paths IH]; simpl; [done|].
  destruct (getAttributeFromSchema s p collection) as [[| | |q c]|]; simpl; done.
Qed.

(** X22: the root relation alias of an identifier is the first of the
    relation paths of the identifier, and there is one exactly when the
    identifier includes a relation. *)
Theorem getRootRelationAlias_first_relation identifier s collection :
  getRootRelationAlias identifier s collection
  = head (getRelationPathsFromIdentifier identifier s collection) ∧
  (identifierIncludesRelation identifier s collection = true ↔
   is_Some (getRootRelationAlias identifier s collection)).
Proof.
  assert (Hhead : getRootRelationAlias identifier s collection
                  = head (getRelationPathsFromIdentifier identifier s collection))
    by apply firstRelationPath_head.
  split; [done|]. rewrite Hhead. unfold identifierIncludesRelation.
  destruct (getRelationPathsFromIdentifier identifier s collection) as [|p ps]; simpl.
  - split; [discriminate|]. by intros [? ?].
  - split; [by eauto|done].
Qed.

(** ** Triples behind a state vector *)

Lemma JsSet_add_cons_ne c y s : y ≠ c → JsSet.add c (y :: s) = y :: JsSet.add c s.
Proof.
  intros Hne. unfold JsSet.add. repeat case_bool_decide; try done.
  - exfalso. apply elem_of_cons in H as [->|?]; done.
  - exfalso. apply H. by apply elem_of_cons; right.
Qed.

Lemma setKey_tabulated {A} (g : string → A) c s :
  setKey c (g c) (map (λ x, (x, g x)) s) = map (λ x, (x, g x)) (JsSet.add c s).
Proof.
  induction s as [|y s IH]; simpl; [done|].
  destruct (String.eqb y c) eqn:Hy.
  - apply String.eqb_eq in Hy as ->. unfold JsSet.add.
    rewrite bool_decide_eq_true_2 by apply list_elem_of_here. done.
  - apply String.eqb_neq in Hy. rewrite JsSet_add_cons_ne by done. simpl. by rewrite IH.
Qed.

Lemma completeStateVector_tabulated all sv :
  completeStateVector all sv = map (λ c, (c, default 0 (sv !! c))) (setOfList all).
Proof.
  unfold completeStateVector, setOfList.
  change (@nil (string * Z)) with (map (λ c, (c, default 0 (sv !! c))) JsSet.empty).
  generalize JsSet.empty. induction all as [|c all IH]; intros s; simpl; [done|].
  rewrite (setKey_tabulated (λ c, default 0 (sv !! c))). apply IH.
Qed.

(** X23: the triples behind a state vector are found by one scan per client
    the store knows, clients in the order the store lists them first, each
    scan strictly behind the tick the vector has for the client and behind
    tick 0 for a client the vector does not have; a client only the vector
    has is not scanned. *)
Theorem getTriplesAfterStateVector_scans findAllClientIds findByClientTimestampGt sv :
  getTriplesAfterStateVector findAllClientIds findByClientTimestampGt sv
  = flat_map (λ clientId,
                findByClientTimestampGt clientId (default 0 (sv !! clientId), clientId))
             (setOfList findAllClientIds) ∧
  NoDup (setOfList findAllClientIds) ∧
  (∀ clientId, clientId ∈ setOfList findAllClientIds ↔ clientId ∈ findAllClientIds).
Proof.
  split.
  - unfold getTriplesAfterStateVector. rewrite completeStateVector_tabulated.
    induction (setOfList findAllClientIds) as [|c l IH]; simpl; [done|]. by rewrite IH.
  - destruct (foldl_add_spec findAllClientIds JsSet.empty (NoDup_nil_2)) as [Hnd Hin].
    split; [done|]. intros c. unfold setOfList. rewrite Hin. split; [|by right].
    intros [H|H]; [by apply not_elem_of_nil in H|done].
Qed.

(** ** Matching an entity against the simple part of a where clause *)

Lemma statementsOf_simple w :
  statementsOf (List.filter (λ f, isFilterStatement f || isFilterGroup f) w) = statementsOf w.
Proof. induction w as [|[| | | |] w IH]; simpl; by rewrite ?IH. Qed.

Lemma groupsOf_simple m w :
  groupsOf m (List.filter (λ f, isFilterStatement f || isFilterGroup f) w) = groupsOf m w.
Proof. induction w as [|[|m' fs| | |] w IH]; simpl; rewrite ?IH; done. Qed.

(** X24: the match against the simple part of a where clause looks at the
    filter statements and the groups of the clause only: sub-query filters,
    exists filters and boolean filters, the filter [false] among them, do not
    change its answer. *)
Theorem doesEntityObjMatchBasicWhere_ignores_other_filters
    Model getSchemaFromPath satisfiesSet satisfiesRegister fuel entityObj w schema_ :
  doesEntityObjMatchBasicWhere Model getSchemaFromPath satisfiesSet satisfiesRegister fuel
    entityObj (Some w) schema_
  = doesEntityObjMatchBasicWhere Model getSchemaFromPath satisfiesSet satisfiesRegister fuel
      entityObj (Some (List.filter (λ f, isFilterStatement f || isFilterGroup f) w)) schema_.
Proof.
  destruct fuel as [|n]; simpl; [done|].
  by rewrite statementsOf_simple, !groupsOf_simple.
Qed.

Lemma forallb_setKey_snoc {A} (chk : string → A → bool) p x
    (groups : list (string * list A)) :
  forallb (λ group, forallb (chk group.1) group.2)
          (setKey p (default [] (assoc p groups) ++ [x]) groups)
  = forallb (λ group, forallb (chk group.1) group.2) groups && chk p x.
Proof.
  induction groups as [|[k old] groups IH]; simpl.
  - by rewrite !andb_true_r.
  - destruct (String.eqb k p) eqn:Hk; simpl.
    + apply String.eqb_eq in Hk as ->. rewrite forallb_app. simpl.
      rewrite andb_true_r.
      destruct (forallb (chk p) old), (chk p x), (forallb _ groups); done.
    + rewrite IH. by rewrite andb_assoc.
Qed.

Lemma groupByPath_snoc filters statement :
  groupByPath (filters ++ [statement])
  = setKey statement.1.1
      (default [] (assoc statement.1.1 (groupByPath filters))
         ++ [(statement.1.2, statement.2)])
      (groupByPath filters).
Proof. unfold groupByPath. rewrite foldl_app. by destruct statement as [[p op] v]. Qed.

(** X25: an entity satisfies a list of filter statements exactly when it
    passes the test of every single statement, the set test where the schema
    types the path as a set and the register test anywhere else; gathering
    the statements by path changes nothing. *)
Theorem entitySatisfiesAllFilters_every_statement
    Model getSchemaFromPath satisfiesSet satisfiesRegister entity filters schema_ :
  entitySatisfiesAllFilters Model getSchemaFromPath satisfiesSet satisfiesRegister entity
    filters schema_
  = forallb (λ statement : Stmt,
               match schema_ ≫= (λ s, getSchemaFromPath s (Str.split "." statement.1.1)) with
               | Some SetType => satisfiesSet entity statement.1.1 statement.1.2 statement.2
               | _ => satisfiesRegister entity statement.1.1 statement.1.2 statement.2
               end)
            filters.
Proof.
  unfold entitySatisfiesAllFilters.
  set (chk := λ (p : string) (f : Operator * Value),
                match schema_ ≫= (λ s, getSchemaFromPath s (Str.split "." p)) with
                | Some SetType => satisfiesSet entity p f.1 f.2
                | _ => satisfiesRegister entity p f.1 f.2
                end).
  assert (Hgroups : forallb (λ group, forallb (chk group.1) group.2) (groupByPath filters)
                    = forallb (λ statement : Stmt, chk statement.1.1 (statement.1.2, statement.2))
                              filters).
  { induction filters as [|statement filters IH] using rev_ind; [done|].
    rewrite groupByPath_snoc, forallb_setKey_snoc, IH, forallb_app. simpl.
    by rewrite andb_true_r. }
  change (((length (groupByPath filters) =? 0)%nat
           || forallb (λ group, forallb (chk group.1) group.2) (groupByPath filters))
          = forallb (λ statement : Stmt, chk statement.1.1 (statement.1.2, statement.2)) filters).
  rewrite Hgroups. destruct (length (groupByPath filters) =? 0)%nat eqn:Hlen; [|done].
  apply Nat.eqb_eq, nil_length_inv in Hlen. simpl.
  rewrite <- Hgroups, Hlen. done.
Qed.

(** ** The chains of a query *)












Lemma subQueryInclusions_unprepared incs name inc :
  (name, inc) ∈ incs →
  (∀ subquery cardinality, inc ≠ RelationSubquery subquery cardinality) →
  subQueryInclusions incs = Throw (QueryNotPreparedError "An inclusion is not prepared").
Proof.
  intros Hin Hinc. induction incs as [|[k i] incs IH]; [by apply not_elem_of_nil in Hin|].
  apply elem_of_cons in Hin as [[= <- <-]|Hin].
  - simpl. destruct inc; try done. by destruct (Hinc subquery cardinality).
  - simpl. destruct i; try done. by rewrite IH.
Qed.

(** X27: a query one of whose inclusions is not a sub-query (a shorthand, a
    reference, a nested inclusion) has no chains: [generateQueryChains]
    raises [QueryNotPreparedError], whatever else the query holds; a query
    without sub-query filters and without inclusions has one chain, the
    prefix followed by the query. *)
Theorem generateQueryChains_without_descent n query prefix :
  (∀ name inc,
     (name, inc) ∈ default [] (include query) →
     (∀ subquery cardinality, inc ≠ RelationSubquery subquery cardinality) →
     generateQueryChains (S n) query prefix
     = Throw (QueryNotPreparedError "An inclusion is not prepared")) ∧
  (subQueryFilters (whereList query) = [] →
   default [] (include query) = [] →
   generateQueryChains (S n) query prefix = Ok [prefix ++ [query]]).
Proof.
  split.
  - intros name inc Hin Hinc. simpl.
    by rewrite (subQueryInclusions_unprepared _ name inc Hin Hinc).
  - intros Hfilters Hincs. simpl. by rewrite Hincs, Hfilters.
Qed.

Lemma generateQueryChains_without_descent_witness :
  generateQueryChains 1 Sample.usersIncludingPosts []
  = Throw (QueryNotPreparedError "An inclusion is not prepared") ∧
  generateQueryChains 1 Sample.usersOlderNamed [] = Ok [[] ++ [Sample.usersOlderNamed]].
Proof.
  split.
  - apply (proj1 (generateQueryChains_without_descent 0 Sample.usersIncludingPosts [])
             "posts" (InclusionShorthand true)).
    + apply list_elem_of_here.
    + intros subquery cardinality. discriminate.
  - apply (proj2 (generateQueryChains_without_descent 0 Sample.usersOlderNamed []));
      reflexivity.
Defined.

(** X28: on a where list without groups the match against the simple part
    of the clause returns at any positive depth, and its answer is the one of
    [entitySatisfiesAllFilters] on the statements of the list. *)
Theorem doesEntityObjMatchBasicWhere_without_groups
    Model getSchemaFromPath satisfiesSet satisfiesRegister n entityObj w schema_ :
  Forall (λ f, isFilterGroup f = false) w →
  doesEntityObjMatchBasicWhere Model getSchemaFromPath satisfiesSet satisfiesRegister (S n)
    entityObj (Some w) schema_
  = Ok (entitySatisfiesAllFilters Model getSchemaFromPath satisfiesSet satisfiesRegister
          entityObj (statementsOf w) schema_).
Proof.
  intros Hw.
  assert (Hgroups : ∀ m, groupsOf m w = []).
  { intros m. induction Hw as [|f w Hf _ IH]; [done|].
    simpl. rewrite IH. by destruct f, m. }
  simpl. rewrite !Hgroups. simpl.
  by destruct (entitySatisfiesAllFilters _ _ _ _ _ _ _).
Qed.

Lemma doesEntityObjMatchBasicWhere_without_groups_witness :
  doesEntityObjMatchBasicWhere unit (λ _ _, None) (λ _ _ _ _, true) (λ _ _ _ _, false) 1
    Sample.user1 (Some (whereList Sample.usersOlderNamed)) None
  = Ok (entitySatisfiesAllFilters unit (λ _ _, None) (λ _ _ _ _, true) (λ _ _ _ _, false)
          Sample.user1 (statementsOf (whereList Sample.usersOlderNamed)) None).
Proof.
  apply (doesEntityObjMatchBasicWhere_without_groups unit (λ _ _, None) (λ _ _ _ _, true)
           (λ _ _ _ _, false) 0 Sample.user1 (whereList Sample.usersOlderNamed) None).
  repeat constructor.
Defined.

(** ** Variables of a sub-query, one level further down *)

Lemma digit_pretty_N_char d : (d < 10)%N → Str.digit (pretty_N_char d) = Some (Z.of_N d).
Proof.
  intros Hd.
  assert (d = 0 ∨ d = 1 ∨ d = 2 ∨ d = 3 ∨ d = 4 ∨ d = 5 ∨ d = 6 ∨ d = 7 ∨ d = 8 ∨ d = 9)%N
    as Hcases by lia.
  repeat (destruct Hcases as [->|Hcases]; [reflexivity|]). by subst.
Qed.

Lemma digits_pretty_N_go x s :
  Str.digits 0 (pretty_N_go x s) = Str.digits (Z.of_N x) s.
Proof.
  revert s. induction (N.lt_wf_0 x) as [x _ IH]; intros s.
  assert (x = 0 ∨ 0 < x)%N as [->|Hx] by lia; [by rewrite pretty_N_go_0|].
  rewrite pretty_N_go_step by done.
  rewrite IH by (by apply N.div_lt). simpl.
  rewrite digit_pretty_N_char by (by apply N.mod_lt).
  f_equal. rewrite (N.div_mod x 10) at 3 by done. lia.
Qed.

Lemma allDigits_pretty_N_go x s : allDigits s = true → allDigits (pretty_N_go x s) = true.
Proof.
  revert s. induction (N.lt_wf_0 x) as [x _ IH]; intros s Hs.
  assert (x = 0 ∨ 0 < x)%N as [->|Hx] by lia; [by rewrite pretty_N_go_0|].
  rewrite pretty_N_go_step by done. apply IH; [by apply N.div_lt|].
  simpl. rewrite digit_pretty_N_char by (by apply N.mod_lt). by rewrite Hs.
Qed.

Lemma pretty_N_go_nonempty x s : (0 < x)%N → ∃ c r, pretty_N_go x s = String c r.
Proof.
  revert s. induction (N.lt_wf_0 x) as [x _ IH]; intros s Hx.
  rewrite pretty_N_go_step by done.
  destruct (N.eq_dec (x `div` 10) 0) as [->|Hdiv].
  - rewrite pretty_N_go_0. eauto.
  - apply IH; [by apply N.div_lt|by apply N.neq_0_lt_0].
Qed.

Lemma digit_character c :
  is_Some (Str.digit c) →
  Str.isWhiteSpace c = false ∧ Ascii.eqb c "-" = false ∧ Ascii.eqb c "+" = false ∧
  Ascii.eqb c "x" = false ∧ Ascii.eqb c "X" = false.
Proof.
  intros [d Hd]. revert Hd.
  destruct c as [[] [] [] [] [] [] [] []]; vm_compute; intros Hd;
    first [discriminate Hd | repeat split].
Qed.

Lemma parseInt_allDigits c s :
  allDigits (String c s) = true →
  Str.parseInt (String c s) = Some (Str.digits 0 (String c s)).
Proof.
  simpl. intros [Hc Hs]%andb_true_iff. apply bool_decide_eq_true in Hc.
  destruct (digit_character c Hc) as (Hws & Hminus & Hplus & _).
  destruct Hc as [d Hd].
  unfold Str.parseInt. simpl. rewrite Hws, Hminus, Hplus.
  unfold Str.parseUnsigned. rewrite Hd. destruct s as [|x s]; [done|].
  simpl in Hs. apply andb_true_iff in Hs as [Hx _]. apply bool_decide_eq_true in Hx.
  destruct (digit_character x Hx) as (_ & _ & _ & -> & ->).
  by rewrite andb_false_r.
Qed.

Lemma pretty_N_digits (n : N) :
  allDigits (pretty n) = true ∧ Str.parseInt (pretty n) = Some (Z.of_N n).
Proof.
  unfold pretty, pretty_N. case_decide as Hn; [by subst|].
  assert (Hall : allDigits (pretty_N_go n "") = true) by by apply allDigits_pretty_N_go.
  split; [done|].
  destruct (pretty_N_go_nonempty n "") as (c & r & Hcr); [lia|].
  pose proof (digits_pretty_N_go n "") as Hdigits.
  rewrite Hcr in Hall, Hdigits |- *.
  by rewrite (parseInt_allDigits _ _ Hall), Hdigits.
Qed.

Lemma split_at_first_dot p rest :
  allDigits p = true →
  Str.indexOf "." (p +:+ "." +:+ rest) = Some (String.length p) ∧
  Str.take (String.length p) (p +:+ "." +:+ rest) = p ∧
  Str.drop (S (String.length p)) (p +:+ "." +:+ rest) = rest.
Proof.
  induction p as [|c p IH]; simpl; [done|].
  intros [Hc Hp]%andb_true_iff. destruct (IH Hp) as (Hidx & Htake & Hdrop).
  assert (Hne : Ascii.eqb c "." = false).
  { apply Ascii.eqb_neq. intros ->. apply bool_decide_eq_true in Hc as [d Hd].
    discriminate. }
  rewrite Hne, Hidx, Htake. done.
Qed.

(** X29: a variable name whose prefix before the first dot is the decimal
    numeral of a safe integer is moved one scope up: the numeral is replaced
    by the numeral of its successor and the rest of the name is kept. *)
Theorem bumpSubqueryVar_numeric_prefix (n : N) rest :
  Z.of_N n <= MAX_SAFE_INTEGER →
  bumpSubqueryVar (pretty n +:+ "." +:+ rest)
  = Some (pretty (Z.of_N n + 1) +:+ "." +:+ rest).
Proof.
  intros Hsafe.
  destruct (pretty_N_digits n) as [Hall Hparse].
  destruct (split_at_first_dot (pretty n) rest Hall) as (Hidx & Htake & Hdrop).
  unfold bumpSubqueryVar. rewrite Hidx. cbv zeta. rewrite Htake, Hdrop, Hparse.
  assert (Hle : (Z.abs (Z.of_N n) <=? MAX_SAFE_INTEGER) = true) by (apply Z.leb_le; lia).
  by rewrite Hle.
Qed.

Lemma bumpSubqueryVar_numeric_prefix_witness :
  bumpSubqueryVar (pretty 9%N +:+ "." +:+ "author.name")
  = Some (pretty (Z.of_N 9 + 1) +:+ "." +:+ "author.name").
Proof.
  apply (bumpSubqueryVar_numeric_prefix 9%N "author.name").
  vm_compute. discriminate.
Defined.

(** ** The variables of a query *)

Lemma setKey_keys_NoDup {A} key (v : A) fs :
  NoDup (map fst fs) → NoDup (map fst (setKey key v fs)).
Proof.
  intros Hnd. rewrite setKey_keys. destruct (assoc key fs) eqn:Hassoc; [done|].
  apply assoc_None_keys in Hassoc. apply NoDup_app. split; [done|]. split.
  - intros x Hx ->%list_elem_of_singleton. done.
  - apply NoDup_singleton.
Qed.

Lemma spreadOver_keys_NoDup {A} (a b : list (string * A)) :
  NoDup (map fst a) → NoDup (map fst (spreadOver a b)).
Proof.
  unfold spreadOver. revert a. induction b as [|[k v] b IH]; intros a Ha; simpl; [done|].
  by apply IH, setKey_keys_NoDup.
Qed.

Lemma assoc_spreadOver {A} (a b : list (string * A)) k :
  NoDup (map fst b) →
  assoc k (spreadOver a b) = match assoc k b with Some v => Some v | None => assoc k a end.
Proof.
  unfold spreadOver. revert a. induction b as [|[k' v'] b IH]; intros a Hb; simpl; [done|].
  apply NoDup_cons in Hb as [Hk' Hb]. simpl in Hk'. rewrite IH by done. simpl.
  destruct (String.eqb k' k) eqn:Hk.
  - apply String.eqb_eq in Hk as ->.
    apply assoc_None_keys in Hk'. by rewrite Hk', assoc_setKey_eq.
  - apply String.eqb_neq in Hk. by rewrite assoc_setKey_ne.
Qed.

Lemma assoc_elem_of {A} (l : list (string * A)) k v :
  NoDup (map fst l) → (k, v) ∈ l → assoc k l = Some v.
Proof.
  induction l as [|[k' v'] l IH]; intros Hnd Hin; [by apply not_elem_of_nil in Hin|].
  simpl in *. apply NoDup_cons in Hnd as [Hk' Hnd].
  apply elem_of_cons in Hin as [[= -> ->]|Hin].
  - by rewrite String.eqb_refl.
  - destruct (String.eqb k' k) eqn:Hk; [|by apply IH].
    apply String.eqb_eq in Hk as ->. exfalso. apply Hk'.
    apply list_elem_of_fmap. by exists (k, v).
Qed.

Lemma frames_keys_NoDup (stack : list Js) :
  NoDup (map fst (imap (λ i val, (pretty (Z.of_nat (length stack - i)), val)) stack)).
Proof.
  apply NoDup_alt. intros i j k. rewrite !list_lookup_fmap, !list_lookup_imap.
  destruct (stack !! i) as [x|] eqn:Hi; [|discriminate].
  destruct (stack !! j) as [y|] eqn:Hj; [|discriminate].
  simpl. intros [= <-] [= Heq].
  apply lookup_lt_Some in Hi, Hj. apply (inj pretty) in Heq. lia.
Qed.

(** X30: every frame of the stack is a variable scope of the query: the
    frame at position [i] is found under the number of frames from it to the
    top of the stack, the innermost frame under 1, whatever the session, the
    variables of the query and the frames hold. *)
Theorem getQueryVariables_frame_scope query session ctx i frame :
  queriedDataStack ctx !! i = Some frame →
  assoc (pretty (Z.of_nat (length (queriedDataStack ctx) - i)))
        (getQueryVariables query session ctx)
  = Some frame.
Proof.
  intros Hi. unfold getQueryVariables.
  rewrite assoc_spreadOver; last first.
  { apply spreadOver_keys_NoDup. simpl.
    repeat (constructor; [apply (bool_decide_eq_false_1 _); reflexivity|]). constructor. }
  rewrite assoc_spreadOver by apply frames_keys_NoDup.
  rewrite (assoc_elem_of _ _ frame); [done|apply frames_keys_NoDup|].
  apply elem_of_lookup_imap. by exists i, frame.
Qed.

Lemma getQueryVariables_frame_scope_witness :
  assoc (pretty (Z.of_nat
                   (length (queriedDataStack
                              (mkContext [Sample.commentFrame; Sample.userFrame])) - 1)))
        (getQueryVariables (Sample.query "posts") Sample.noCaller
           (mkContext [Sample.commentFrame; Sample.userFrame]))
  = Some Sample.userFrame.
Proof.
  apply (getQueryVariables_frame_scope (Sample.query "posts") Sample.noCaller
           (mkContext [Sample.commentFrame; Sample.userFrame]) 1%nat Sample.userFrame).
  reflexivity.
Defined.
